(** * medical_kg: extraction, deduplication, graph assembly and QA retrieval

    A shallow embedding of the pipeline of the repository:
    - [KGBuilder]  : data/kg_builder.py  (entity and relation deduplication,
                     graph assembly on a networkx [DiGraph]);
    - [NLPUtils]   : src/utils/nlp_utils.py (per-pair relation extraction, the
                     shortcut table, the confidence filter);
    - [QAModel]    : src/models/qa_model.py (graph retrieval for a question).

    Python values are modelled as follows.  A [str] is a Rocq [string] holding
    the UTF-8 bytes of the text (substring containment over valid UTF-8 agrees
    with containment over code points).  A [float] is a binary64 primitive
    float, with Python's comparison operators.  A [dict] is an association list
    in insertion order with unique keys: Python dicts iterate in insertion
    order and assigning to an existing key keeps the key's position.  A JSON
    value decoded by [json.loads] is a [json]. *)

From Stdlib Require Import List String Ascii ZArith Bool Lia Floats.
From Stdlib Require Import DecimalString DecimalZ.
Import ListNotations.

#[local] Set Warnings "-inexact-float,-register-all".
#[local] Open Scope string_scope.

(* ================================================================== *)
(** ** Python runtime notions *)

Module Py.

(** [dict]: insertion-ordered association list. *)
Definition dict (V : Type) : Type := list (string * V).

(** [d.get(k)] / [d[k]] (the caller decides what a missing key means). *)
Fixpoint dict_get {V : Type} (d : dict V) (k : string) : option V :=
  match d with
  | [] => None
  | (k', v) :: d' => if String.eqb k k' then Some v else dict_get d' k
  end.

(** [k in d]. *)
Definition dict_has {V : Type} (d : dict V) (k : string) : bool :=
  match dict_get d k with Some _ => true | None => false end.

(** [d[k] = v]: an existing key keeps its position, a new key goes last. *)
Fixpoint dict_set {V : Type} (d : dict V) (k : string) (v : V) : dict V :=
  match d with
  | [] => [(k, v)]
  | (k', v') :: d' =>
      if String.eqb k k' then (k, v) :: d' else (k', v') :: dict_set d' k v
  end.

(** [d.get(k, default)]. *)
Definition dict_get_default {V : Type} (d : dict V) (k : string) (default : V) : V :=
  match dict_get d k with Some v => v | None => default end.

(** [d.update(other)]. *)
Definition dict_update {V : Type} (d other : dict V) : dict V :=
  fold_left (fun acc kv => dict_set acc (fst kv) (snd kv)) other d.

Definition dict_keys {V : Type} (d : dict V) : list string := map fst d.
Definition dict_values {V : Type} (d : dict V) : list V := map snd d.

(** [needle in hay] on strings. *)
Fixpoint str_in (needle hay : string) : bool :=
  if String.prefix needle hay then true
  else match hay with
       | EmptyString => false
       | String _ hay' => str_in needle hay'
       end.

(** [x in xs] for a list of strings. *)
Definition str_in_list (x : string) (xs : list string) : bool :=
  existsb (String.eqb x) xs.

(** [str(n)] for an [int]. *)
Definition str_of_int (n : Z) : string := NilZero.string_of_int (Z.to_int n).

(** [sep.join(xs)]. *)
Fixpoint join (sep : string) (xs : list string) : string :=
  match xs with
  | [] => ""
  | [x] => x
  | x :: xs' => x ++ sep ++ join sep xs'
  end.

(** The double quote character, as a one-character string. *)
Definition dquote : string := String (ascii_of_nat 34) EmptyString.

(** Values decoded from JSON.  Python's [int] and [float] are both carried by
    [JNum]: an integer stands for its float value. *)
Inductive json : Type :=
| JNull
| JBool (b : bool)
| JNum (f : float)
| JStr (s : string)
| JList (xs : list json)
| JDict (d : list (string * json)).

(** [bool(v)]: Python truthiness. *)
Definition truthy (v : json) : bool :=
  match v with
  | JNull => false
  | JBool b => b
  | JNum f => negb (PrimFloat.eqb f 0)
  | JStr s => negb (String.eqb s "")
  | JList xs => match xs with [] => false | _ => true end
  | JDict d => match d with [] => false | _ => true end
  end.

(** [isinstance(v, (str, int, float, bool))]. *)
Definition is_scalar (v : json) : bool :=
  match v with
  | JBool _ | JNum _ | JStr _ => true
  | _ => false
  end.

(** [s == v] for a string [s] and an arbitrary value [v]. *)
Definition str_eq_json (s : string) (v : json) : bool :=
  match v with
  | JStr t => String.eqb s t
  | _ => false
  end.

(** [s in c] for a string [s]: key test on a dict, substring test on a string,
    membership on a list; [None] is the TypeError of the other values. *)
Definition contains (c : json) (s : string) : option bool :=
  match c with
  | JDict d => Some (dict_has d s)
  | JStr t => Some (str_in s t)
  | JList xs => Some (existsb (str_eq_json s) xs)
  | _ => None
  end.

(** [c[s] = v] for a string key: only a dict accepts it. *)
Definition setitem (c : json) (s : string) (v : json) : option json :=
  match c with
  | JDict d => Some (JDict (dict_set d s v))
  | _ => None
  end.

(** [c[s]] for a string key: only a dict accepts it (KeyError when absent). *)
Definition getitem (c : json) (s : string) : option json :=
  match c with
  | JDict d => dict_get d s
  | _ => None
  end.

(** [for x in c]: the items a [for] loop visits; [None] when [c] is not
    iterable.  A string yields its characters (here: its bytes). *)
Definition iterate (c : json) : option (list json) :=
  match c with
  | JList xs => Some xs
  | JDict d => Some (map (fun kv => JStr (fst kv)) d)
  | JStr s => Some (map (fun a => JStr (String a EmptyString)) (list_ascii_of_string s))
  | _ => None
  end.

(** ASCII lower-casing; [str.lower] agrees with it on text whose cased letters
    are ASCII (digits, CJK characters and their UTF-8 bytes are unchanged). *)
Definition ascii_lower_char (a : ascii) : ascii :=
  let n := nat_of_ascii a in
  if (Nat.leb 65 n && Nat.leb n 90)%bool then ascii_of_nat (n + 32) else a.

Fixpoint ascii_lower (s : string) : string :=
  match s with
  | EmptyString => EmptyString
  | String a s' => String (ascii_lower_char a) (ascii_lower s')
  end.

End Py.

(* ================================================================== *)
(** ** data/kg_builder.py *)

Module KGBuilder.
Import Py.

(** An entity record as the pipeline holds it.  [e_id] is absent on a mention
    and set by deduplication; [e_description] and [e_attributes] are optional
    keys of the dict. *)
Record Entity : Type := mkEntity {
  e_type : string;
  e_name : string;
  e_id : option Z;
  e_source_doc : string;
  e_description : option string;
  e_attributes : option json
}.

Definition set_id (e : Entity) (i : Z) : Entity :=
  mkEntity (e_type e) (e_name e) (Some i) (e_source_doc e)
           (e_description e) (e_attributes e).

Definition set_description (e : Entity) (d : option string) : Entity :=
  mkEntity (e_type e) (e_name e) (e_id e) (e_source_doc e) d (e_attributes e).

(** ['description' in e and e['description']]. *)
Definition has_description (e : Entity) : bool :=
  match e_description e with
  | Some d => negb (String.eqb d "")
  | None => false
  end.

(** [f"{entity['type']}:{entity['name']}"]. *)
Definition entity_key (e : Entity) : string := e_type e ++ ":" ++ e_name e.

(** One iteration of the loop of [_deduplicate_entities]. *)
Definition dedup_entity_step (unique_entities : dict Entity) (entity : Entity)
  : dict Entity :=
  let key := entity_key entity in
  match dict_get unique_entities key with
  | None =>
      dict_set unique_entities key
               (set_id entity (Z.of_nat (List.length unique_entities)))
  | Some canonical =>
      if has_description entity then
        if negb (has_description canonical) then
          dict_set unique_entities key
                   (set_description canonical (e_description entity))
        else unique_entities
      else unique_entities
  end.

Definition _deduplicate_entities (entities : list Entity) : list Entity :=
  dict_values (fold_left dedup_entity_step entities []).

(** A relation record in the standard format built by
    [extract_relations_from_text]. *)
Record Relation : Type := mkRelation {
  r_source_id : Z;
  r_source_type : string;
  r_source_name : string;
  r_target_id : Z;
  r_target_type : string;
  r_target_name : string;
  r_relation_type : string;
  r_description : option string;
  r_confidence : option float
}.

(** The five-field f-string key of [_deduplicate_relations]. *)
Definition relation_key (r : Relation) : string :=
  r_source_type r ++ ":" ++ str_of_int (r_source_id r) ++ ":" ++
  r_target_type r ++ ":" ++ str_of_int (r_target_id r) ++ ":" ++
  r_relation_type r.

(** [relation.get('confidence', 0)]. *)
Definition confidence (r : Relation) : float :=
  match r_confidence r with Some c => c | None => 0%float end.

(** One iteration of the loop of [_deduplicate_relations]; Python's
    [a > b] on floats is [b <? a]. *)
Definition dedup_relation_step (unique_relations : dict Relation)
           (relation : Relation) : dict Relation :=
  let key := relation_key relation in
  match dict_get unique_relations key with
  | None => dict_set unique_relations key relation
  | Some kept =>
      if PrimFloat.ltb (confidence kept) (confidence relation)
      then dict_set unique_relations key relation
      else unique_relations
  end.

Definition _deduplicate_relations (relations : list Relation) : list Relation :=
  dict_values (fold_left dedup_relation_step relations []).

(** *** The graph: [networkx.DiGraph]

    The library is not part of the repository; its documented behaviour is
    modelled.  [g_node] is [G._node] (node -> attribute dict) and [g_succ] is
    [G._succ] (node -> successor -> edge attribute dict); both have the same
    keys.  A [DiGraph] holds at most one edge per ordered pair of nodes. *)
Record DiGraph : Type := mkDiGraph {
  g_node : dict (dict json);
  g_succ : dict (dict (dict json))
}.

(** [nx.DiGraph()]. *)
Definition empty_graph : DiGraph := mkDiGraph [] [].

(** [G.add_node(n, **attr)]: a new node gets the attributes, an existing one
    has its attribute dict updated. *)
Definition add_node (g : DiGraph) (n : string) (attr : dict json) : DiGraph :=
  match dict_get (g_node g) n with
  | None =>
      mkDiGraph (dict_set (g_node g) n (dict_update [] attr))
                (dict_set (g_succ g) n [])
  | Some old =>
      mkDiGraph (dict_set (g_node g) n (dict_update old attr)) (g_succ g)
  end.

(** [G.add_edge(u, v, **attr)]: missing endpoints are created; the attribute
    dict of an edge [u -> v] already there is updated, not duplicated. *)
Definition add_edge (g : DiGraph) (u v : string) (attr : dict json) : DiGraph :=
  let g1 := if dict_has (g_node g) u then g else add_node g u [] in
  let g2 := if dict_has (g_node g1) v then g1 else add_node g1 v [] in
  let nbrs := dict_get_default (g_succ g2) u [] in
  let datadict := dict_update (dict_get_default nbrs v []) attr in
  mkDiGraph (g_node g2) (dict_set (g_succ g2) u (dict_set nbrs v datadict)).

(** An edge with its data, as the edge views yield it. *)
Definition edge : Type := (string * string * dict json)%type.
Definition edge_source (e : edge) : string := fst (fst e).
Definition edge_target (e : edge) : string := snd (fst e).
Definition edge_data (e : edge) : dict json := snd e.

(** [G.edges(data=True)]: every edge, by source node then successor. *)
Definition edges (g : DiGraph) : list edge :=
  flat_map (fun un => map (fun vd => (fst un, fst vd, snd vd)) (snd un))
           (g_succ g).

(** [G.edges([n], data=True)] and [G.out_edges(n, data=True)]: on a directed
    graph the edge view restricted to a node reports the edges leaving it. *)
Definition out_edges (g : DiGraph) (n : string) : list edge :=
  match dict_get (g_succ g) n with
  | Some nbrs => map (fun vd => (n, fst vd, snd vd)) nbrs
  | None => []
  end.

(** [G.in_edges(n, data=True)]: the edges entering [n] (the order in which
    networkx lists them is not modelled). *)
Definition in_edges (g : DiGraph) (n : string) : list edge :=
  filter (fun e => String.eqb (edge_target e) n) (edges g).

(** *** [build_graph], from the point where [self.entities] and
    [self.relations] are available. *)
Section Assemble.

(** [json.dumps], a library function. *)
Variable json_dumps : json -> string.

(** [f"{type}_{id}"]. *)
Definition node_key (type : string) (id : Z) : string :=
  type ++ "_" ++ str_of_int id.

(** The keyword arguments of [add_node]. *)
Definition node_attrs (entity_id : string) (entity : Entity) : dict json :=
  [ ("id", JStr entity_id);
    ("name", JStr (e_name entity));
    ("type", JStr (e_type entity));
    ("source_doc", JStr (e_source_doc entity));
    ("description",
      JStr (match e_description entity with Some d => d | None => "" end));
    ("attributes",
      JStr (json_dumps
              (match e_attributes entity with Some a => a | None => JDict [] end)))
  ].

(** One iteration of the node loop; [None] is the KeyError of [entity['id']]
    on an entity that was given no id. *)
Definition add_entity_node (acc : option DiGraph) (entity : Entity)
  : option DiGraph :=
  match acc, e_id entity with
  | Some g, Some i =>
      let entity_id := node_key (e_type entity) i in
      Some (add_node g entity_id (node_attrs entity_id entity))
  | _, _ => None
  end.

(** The keyword arguments of [add_edge]. *)
Definition edge_attrs (relation : Relation) : dict json :=
  [ ("type", JStr (r_relation_type relation));
    ("confidence",
      JNum (match r_confidence relation with Some c => c | None => 0.8%float end));
    ("description",
      JStr (match r_description relation with Some d => d | None => "" end))
  ].

Definition source_key (relation : Relation) : string :=
  node_key (r_source_type relation) (r_source_id relation).

Definition target_key (relation : Relation) : string :=
  node_key (r_target_type relation) (r_target_id relation).

(** One iteration of the edge loop. *)
Definition add_relation_edge (g : DiGraph) (relation : Relation) : DiGraph :=
  let source_id := source_key relation in
  let target_id := target_key relation in
  if negb (dict_has (g_node g) source_id) || negb (dict_has (g_node g) target_id)
  then g
  else add_edge g source_id target_id (edge_attrs relation).

Definition build_graph (entities : list Entity) (relations : list Relation)
  : option DiGraph :=
  match fold_left add_entity_node entities (Some empty_graph) with
  | Some g => Some (fold_left add_relation_edge relations g)
  | None => None
  end.

End Assemble.

End KGBuilder.

(* ================================================================== *)
(** ** src/utils/nlp_utils.py *)

Module NLPUtils.
Import Py KGBuilder.

(** [relation_type_map]: candidate relation types per (source type, target
    type). *)
Definition relation_type_map : list (string * string * list string) :=
  [ ("疾病", "症状", ["相关症状"; "表现为"]);
    ("疾病", "药物", ["治疗药物"; "可用药物"]);
    ("疾病", "检查项目", ["诊断方法"; "检查手段"]);
    ("疾病", "并发症", ["导致"; "引起"]);
    ("疾病", "疾病", ["相关疾病"; "并发症"]);
    ("药物", "疾病", ["治疗"; "预防"]);
    ("治疗方法", "疾病", ["治疗"; "适用于"]);
    ("病因", "疾病", ["导致"; "引起"]);
    ("疾病", "解剖部位", ["影响"; "发生于"]);
    ("药物", "解剖部位", ["作用于"; "影响"]) ].

(** [relation_type_map.get((a, b), [])]. *)
Fixpoint type_map_get (m : list (string * string * list string)) (a b : string)
  : list string :=
  match m with
  | [] => []
  | (a', b', ts) :: m' =>
      if String.eqb a a' && String.eqb b b' then ts else type_map_get m' a b
  end.

(** A relation as the shortcut table writes it. *)
Definition predefined (type description : string) : json :=
  JDict [ ("type", JStr type);
          ("description", JStr description);
          ("confidence", JNum 1.0%float) ].

Definition _check_predefined_relations (source_entity target_entity : Entity)
  : list json :=
  if String.eqb (e_name source_entity) "糖尿病"
     && String.eqb (e_type target_entity) "症状"
     && str_in_list (e_name target_entity) ["多饮"; "多食"; "多尿"; "体重减轻"]
  then [predefined "相关症状"
                   ("糖尿病的典型症状包括" ++ e_name target_entity)]
  else if String.eqb (e_type source_entity) "药物"
          && String.eqb (e_name target_entity) "糖尿病"
          && str_in_list (e_name source_entity) ["胰岛素"; "二甲双胍"]
  then [predefined "治疗" (e_name source_entity ++ "用于治疗糖尿病")]
  else if String.eqb (e_name source_entity) "糖尿病"
          && String.eqb (e_type target_entity) "并发症"
          && str_in "糖尿病" (e_name target_entity)
  then [predefined "导致" ("糖尿病可能导致" ++ e_name target_entity)]
  else [].

(** The prompt sent to the generation service for a pair. *)
Definition relation_prompt (source_name source_type target_name target_type : string)
           (relation_types : list string) : string :=
  "从医学角度分析以下两个医学实体之间的关系：
源实体：" ++ source_name ++ "（类型：" ++ source_type ++ "）
目标实体：" ++ target_name ++ "（类型：" ++ target_type ++ "）

请确定这两个实体之间是否存在关系。如果存在，请指定关系类型并提供简短描述。
可能的关系类型包括：" ++ join ", " relation_types ++ "

请以JSON格式回答，格式如下：
[
  {
    " ++ dquote ++ "type" ++ dquote ++ ": " ++ dquote ++ "关系类型" ++ dquote ++ ",
    " ++ dquote ++ "description" ++ dquote ++ ": " ++ dquote ++ "关系描述" ++ dquote ++ ",
    " ++ dquote ++ "confidence" ++ dquote ++ ": 0.9  // 0.0到1.0之间的值，表示关系存在的可能性
  }
]

如果不存在关系，请返回空数组 []。
请确保JSON格式正确，使用双引号包围键和字符串值。
".

Section Extract.

(** [float(s)] on a string, a library function: [None] is its ValueError. *)
Variable float_of_str : string -> option float.

(** [api_client.generate_json]: the decoded response to a prompt; [None] is a
    raised exception. *)
Variable generate_json : string -> option json.

(** [float(v)]; [None] is the TypeError or ValueError. *)
Definition to_float (v : json) : option float :=
  match v with
  | JNum f => Some f
  | JBool b => Some (if b then 1%float else 0%float)
  | JStr s => float_of_str s
  | _ => None
  end.

(** The confidence threshold of the filter. *)
Definition min_confidence : float := 0.6%float.

(** The body of the filtering loop on one returned item: [None] is a raised
    exception, [Some None] a skipped item ([continue]), [Some (Some r)] the
    item appended to [valid_relations]. *)
Definition filter_relation (relation : json) : option (option json) :=
  match contains relation "type" with
  | None => None
  | Some false => Some None
  | Some true =>
      match contains relation "confidence" with
      | None => None
      | Some has_confidence =>
          let assigned :=
            if has_confidence then Some relation
            else setitem relation "confidence" (JNum 1.0%float) in
          match assigned with
          | None => None
          | Some relation' =>
              match getitem relation' "confidence" with
              | None => None
              | Some c =>
                  match to_float c with
                  | None => None
                  | Some f =>
                      if PrimFloat.ltb f min_confidence then Some None
                      else Some (Some relation')
                  end
              end
          end
      end
  end.

(** The loop over the returned items. *)
Fixpoint filter_relations (relations : list json) (valid_relations : list json)
  : option (list json) :=
  match relations with
  | [] => Some valid_relations
  | relation :: rest =>
      match filter_relation relation with
      | None => None
      | Some None => filter_relations rest valid_relations
      | Some (Some r) => filter_relations rest (valid_relations ++ [r])%list
      end
  end.

(** What the [try] block returns for a response; [None] is an exception, which
    the [except] clause turns into the empty list. *)
Definition handle_response (response : json) : option (list json) :=
  if negb (truthy response) then Some []
  else
    let relations :=
      match response with
      | JList _ => Some response
      | JDict d => dict_get d "relations"
      | _ => None
      end in
    match relations with
    | None => Some []
    | Some rs =>
        match iterate rs with
        | None => None
        | Some items => filter_relations items []
        end
    end.

(** [extract_medical_relations]: the relations found for a pair, and the
    prompts sent to the generation service, in order.  The guards on missing
    entities and missing [name]/[type] keys hold of every [Entity] record. *)
Definition extract_medical_relations (source_entity target_entity : Entity)
  : list json * list string :=
  let source_type := e_type source_entity in
  let target_type := e_type target_entity in
  let direct := type_map_get relation_type_map source_type target_type in
  let reversed := type_map_get relation_type_map target_type source_type in
  let swap :=
    match direct, reversed with
    | [], _ :: _ => true
    | _, _ => false
    end in
  let relation_types := match direct with [] => reversed | _ => direct end in
  let source_entity' := if swap then target_entity else source_entity in
  let target_entity' := if swap then source_entity else target_entity in
  let source_type' := if swap then target_type else source_type in
  let target_type' := if swap then source_type else target_type in
  let relation_types' :=
    match relation_types with [] => ["相关"; "关联"] | _ => relation_types end in
  match _check_predefined_relations source_entity' target_entity' with
  | r :: rs => (r :: rs, [])
  | [] =>
      let prompt :=
        relation_prompt (e_name source_entity') source_type'
                        (e_name target_entity') target_type' relation_types' in
      match generate_json prompt with
      | None => ([], [prompt])
      | Some response =>
          match handle_response response with
          | Some valid_relations => (valid_relations, [prompt])
          | None => ([], [prompt])
          end
      end
  end.

End Extract.

End NLPUtils.

(* ================================================================== *)
(** ** src/models/qa_model.py *)

Module QAModel.
Import Py KGBuilder.

(** An entity recognised in the question: the [name] and [type] keys of the
    prompt's output format, either of which may be absent. *)
Record QuestionEntity : Type := mkQuestionEntity {
  qe_name : option string;
  qe_type : option string
}.

(** [question_entity.get("name", "")] and [question_entity.get("type", "")]. *)
Definition question_name (question_entity : QuestionEntity) : string :=
  match qe_name question_entity with Some s => s | None => "" end.

Definition question_type (question_entity : QuestionEntity) : string :=
  match qe_type question_entity with Some s => s | None => "" end.

Section Retrieval.

(** [str.lower], a library function. *)
Variable lower : string -> string.

(** The test of the node scan.  [None] is the AttributeError raised by
    [.lower()] on a node name that is not a string. *)
Definition node_matches (entity_name entity_type : string)
           (node_data : dict json) : option bool :=
  match dict_get_default node_data "name" (JStr "") with
  | JStr node_name =>
      let node_type := dict_get_default node_data "type" (JStr "") in
      Some (str_in (lower entity_name) (lower node_name)
            && (String.eqb entity_type "" || str_eq_json entity_type node_type))
  | _ => None
  end.

(** The node scan: [matched_nodes] for one question entity. *)
Fixpoint matched_nodes (entity_name entity_type : string)
         (nodes : dict (dict json)) : option (dict (dict json)) :=
  match nodes with
  | [] => Some []
  | (node, node_data) :: rest =>
      match node_matches entity_name entity_type node_data with
      | None => None
      | Some b =>
          match matched_nodes entity_name entity_type rest with
          | None => None
          | Some ms => Some (if b then (node, node_data) :: ms else ms)
          end
      end
  end.

(** [{k: v for k, v in data.items() if isinstance(v, (str, int, float, bool))}]. *)
Definition scalar_items (data : dict json) : dict json :=
  filter (fun kv => is_scalar (snd kv)) data.

Definition retrieved_entity (node_id : string) (node_data : dict json)
  : dict json :=
  dict_update [("id", JStr node_id)] (scalar_items node_data).

(** [not question_relations or edge_type in question_relations]. *)
Definition edge_kept (question_relations : list string) (data : dict json)
  : bool :=
  let edge_type := dict_get_default data "type" (JStr "") in
  match question_relations with
  | [] => true
  | _ => existsb (fun h => str_eq_json h edge_type) question_relations
  end.

(** [self.graph.nodes[n].get("name", "")]; [None] is the KeyError of a node
    that is not in the graph. *)
Definition name_of (g : DiGraph) (n : string) : option json :=
  match dict_get (g_node g) n with
  | Some data => Some (dict_get_default data "name" (JStr ""))
  | None => None
  end.

Definition retrieved_relation (g : DiGraph) (e : edge) : option (dict json) :=
  match name_of g (edge_source e), name_of g (edge_target e) with
  | Some source_name, Some target_name =>
      Some (dict_update
              [ ("source", JStr (edge_source e));
                ("target", JStr (edge_target e));
                ("source_name", source_name);
                ("target_name", target_name) ]
              (scalar_items (edge_data e)))
  | _, _ => None
  end.

(** The edges visited for a matched node: [self.graph.edges([node_id],
    data=True)]. *)
Definition visited_edges (g : DiGraph) (node_id : string) : list edge :=
  out_edges g node_id.

(** The relations retrieved for one matched node. *)
Fixpoint relations_of_edges (g : DiGraph) (question_relations : list string)
         (es : list edge) : option (list (dict json)) :=
  match es with
  | [] => Some []
  | e :: rest =>
      match relations_of_edges g question_relations rest with
      | None => None
      | Some rs =>
          if edge_kept question_relations (edge_data e) then
            match retrieved_relation g e with
            | Some r => Some (r :: rs)
            | None => None
            end
          else Some rs
      end
  end.

(** The loop over the matched nodes of one question entity. *)
Fixpoint collect (g : DiGraph) (question_relations : list string)
         (matched : dict (dict json))
  : option (list (dict json) * list (dict json)) :=
  match matched with
  | [] => Some ([], [])
  | (node_id, node_data) :: rest =>
      match relations_of_edges g question_relations (visited_edges g node_id),
            collect g question_relations rest with
      | Some rs, Some (es', rs') =>
          Some (retrieved_entity node_id node_data :: es', (rs ++ rs')%list)
      | _, _ => None
      end
  end.

(** The loop over the question entities. *)
Fixpoint retrieve (g : DiGraph) (question_entities : list QuestionEntity)
         (question_relations : list string)
  : option (list (dict json) * list (dict json)) :=
  match question_entities with
  | [] => Some ([], [])
  | question_entity :: rest =>
      let entity_name := question_name question_entity in
      let entity_type := question_type question_entity in
      match matched_nodes entity_name entity_type (g_node g) with
      | None => None
      | Some matched =>
          match collect g question_relations matched,
                retrieve g rest question_relations with
          | Some (es, rs), Some (es', rs') => Some ((es ++ es')%list, (rs ++ rs')%list)
          | _, _ => None
          end
      end
  end.

(** [_retrieve_kg_information]: the retrieved entities and relations; [None]
    is a raised exception.  A graph that is [None] or has no node is falsy. *)
Definition _retrieve_kg_information (graph : option DiGraph)
           (question_entities : list QuestionEntity)
           (question_relations : list string)
  : option (list (dict json) * list (dict json)) :=
  match graph with
  | None => Some ([], [])
  | Some g =>
      match g_node g with
      | [] => Some ([], [])
      | _ => retrieve g question_entities question_relations
      end
  end.

End Retrieval.

End QAModel.

(* ================================================================== *)
(** ** src/utils/nlp_utils.py: the extraction loops *)

Module TextExtraction.
Import Py KGBuilder NLPUtils.

(** *** [extract_medical_entities] *)

Section Entities.

(** [str(v)], as an f-string renders a value: a library function. *)
Variable py_str : json -> string.

(** The prompt built around the first 1000 characters of the text.  Strings
    are bytes here and the cut counts characters, so the template is kept as
    a function of the text. *)
Variable entity_prompt : string -> string.

(** [api_client.generate_json]; [None] is a raised exception. *)
Variable generate_json : string -> option json.

(** One iteration of the de-duplicating loop, on [(unique_entities, seen)];
    [None] is a raised exception. *)
Definition unique_entity_step (acc : option (list json * list string))
           (entity : json) : option (list json * list string) :=
  match acc with
  | None => None
  | Some (unique_entities, seen) =>
      match contains entity "name" with
      | None => None
      | Some false => Some (unique_entities, seen)
      | Some true =>
          match contains entity "type" with
          | None => None
          | Some false => Some (unique_entities, seen)
          | Some true =>
              match getitem entity "name", getitem entity "type" with
              | Some name, Some type =>
                  let entity_key := py_str name ++ "_" ++ py_str type in
                  if str_in_list entity_key seen
                  then Some (unique_entities, seen)
                  else Some ((unique_entities ++ [entity])%list,
                             entity_key :: seen)
              | _, _ => None
              end
          end
      end
  end.

(** What the [try] block returns for a decoded response; [None] is an
    exception ([result.get] on a value that is no dict, [len] or [for] on a
    value that has no length), which the [except] clause turns into the empty
    list. *)
Definition unique_entities_of (result : json) : option (list json) :=
  match result with
  | JDict d =>
      let entities := dict_get_default d "entities" (JList []) in
      match iterate entities with
      | None => None
      | Some items =>
          if negb (truthy entities) then Some []
          else
            match fold_left unique_entity_step items (Some ([], [])) with
            | Some (unique_entities, _) => Some unique_entities
            | None => None
            end
      end
  | _ => None
  end.

Definition extract_medical_entities (text : string) : list json :=
  match generate_json (entity_prompt text) with
  | None => []
  | Some result =>
      match unique_entities_of result with
      | Some unique_entities => unique_entities
      | None => []
      end
  end.

End Entities.

(** *** [extract_relations_from_text] *)

(** The relation record the loop builds ([relation_obj]).  The three fields
    read from the extractor's relation keep the JSON value found there. *)
Record RelationMention : Type := mkRelationMention {
  m_source_id : option Z;
  m_source_type : string;
  m_source_name : string;
  m_target_id : option Z;
  m_target_type : string;
  m_target_name : string;
  m_relation_type : json;
  m_description : json;
  m_confidence : json
}.

(** [relation.get(k, default)]; [None] is the AttributeError of a value that
    is no dict. *)
Definition py_get (relation : json) (k : string) (default : json)
  : option json :=
  match relation with
  | JDict d => Some (dict_get_default d k default)
  | _ => None
  end.

Definition relation_obj (source_entity target_entity : Entity)
           (relation : json) : option RelationMention :=
  match py_get relation "type" JNull,
        py_get relation "description" (JStr ""),
        py_get relation "confidence" (JNum 0.8%float) with
  | Some type, Some description, Some confidence =>
      Some (mkRelationMention
              (e_id source_entity) (e_type source_entity) (e_name source_entity)
              (e_id target_entity) (e_type target_entity) (e_name target_entity)
              type description confidence)
  | _, _, _ => None
  end.

(** The loop over the relations found for a pair. *)
Fixpoint relation_objs (source_entity target_entity : Entity)
         (entity_relations : list json) : option (list RelationMention) :=
  match entity_relations with
  | [] => Some []
  | relation :: rest =>
      match relation_obj source_entity target_entity relation,
            relation_objs source_entity target_entity rest with
      | Some m, Some ms => Some (m :: ms)
      | _, _ => None
      end
  end.

(** [f"{entity.get('id')}"]. *)
Definition id_str (entity : Entity) : string :=
  match e_id entity with
  | Some i => str_of_int i
  | None => "None"
  end.

Definition pair_key (source_entity target_entity : Entity) : string :=
  id_str source_entity ++ ":" ++ id_str target_entity.

(** One step of grouping by a string field: [d[k]] is created empty when
    missing, then appended to. *)
Definition group_step (field : Entity -> string) (groups : dict (list Entity))
           (entity : Entity) : dict (list Entity) :=
  match dict_get groups (field entity) with
  | None => dict_set groups (field entity) [entity]
  | Some members => dict_set groups (field entity) (members ++ [entity])%list
  end.

(** [entities_by_type]. *)
Definition group_by_type (entities : list Entity) : dict (list Entity) :=
  fold_left (group_step e_type) entities [].

(** What the loops carry: the relations found, the set of processed pair
    keys, and the prompts sent to the generation service. *)
Record LoopState : Type := mkLoopState {
  ls_relations : list RelationMention;
  ls_processed : list string;
  ls_prompts : list string
}.

Definition max_pairs : nat := 5.

Section Relations.

Variable float_of_str : string -> option float.
Variable generate_json : string -> option json.

(** The loop over the target entities for one source entity, from the value
    of [pairs_count]; [None] is a raised exception. *)
Fixpoint target_loop (source_entity : Entity) (target_entities : list Entity)
         (st : LoopState) (pairs_count : nat) : option (LoopState * nat) :=
  match target_entities with
  | [] => Some (st, pairs_count)
  | target_entity :: rest =>
      let key := pair_key source_entity target_entity in
      if str_in_list key (ls_processed st)
      then target_loop source_entity rest st pairs_count
      else
        let found :=
          extract_medical_relations float_of_str generate_json
                                    source_entity target_entity in
        match relation_objs source_entity target_entity (fst found) with
        | None => None
        | Some ms =>
            let st' := mkLoopState (ls_relations st ++ ms)%list
                                   (key :: ls_processed st)
                                   (ls_prompts st ++ snd found)%list in
            if Nat.leb max_pairs (S pairs_count)
            then Some (st', S pairs_count)
            else target_loop source_entity rest st' (S pairs_count)
        end
  end.

(** The loop over the source entities of one pair of types. *)
Fixpoint source_loop (source_entities target_entities : list Entity)
         (st : LoopState) (pairs_count : nat) : option LoopState :=
  match source_entities with
  | [] => Some st
  | source_entity :: rest =>
      if Nat.leb max_pairs pairs_count then Some st
      else
        match target_loop source_entity target_entities st pairs_count with
        | None => None
        | Some (st', pairs_count') =>
            source_loop rest target_entities st' pairs_count'
        end
  end.

(** The loop over the target types for one source type. *)
Fixpoint target_type_loop (source_type : string) (source_entities : list Entity)
         (targets : dict (list Entity)) (st : LoopState) : option LoopState :=
  match targets with
  | [] => Some st
  | (target_type, target_entities) :: rest =>
      if String.eqb source_type target_type
      then target_type_loop source_type source_entities rest st
      else
        match source_loop source_entities target_entities st 0 with
        | None => None
        | Some st' => target_type_loop source_type source_entities rest st'
        end
  end.

(** The loop over the source types. *)
Fixpoint source_type_loop (sources entities_by_type : dict (list Entity))
         (st : LoopState) : option LoopState :=
  match sources with
  | [] => Some st
  | (source_type, source_entities) :: rest =>
      match target_type_loop source_type source_entities entities_by_type st with
      | None => None
      | Some st' => source_type_loop rest entities_by_type st'
      end
  end.

(** [extract_relations_from_text]: the relations, and the prompts sent, in
    order; [None] is a raised exception.  The text and the relation types
    passed by the caller are not used by the function. *)
Definition extract_relations_from_text (entities : list Entity)
  : option (list RelationMention * list string) :=
  if Nat.ltb (List.length entities) 2 then Some ([], [])
  else
    let entities_by_type := group_by_type entities in
    match source_type_loop entities_by_type entities_by_type
                           (mkLoopState [] [] []) with
    | Some st => Some (ls_relations st, ls_prompts st)
    | None => None
    end.

(** *** [KnowledgeGraphBuilder.extract_relations], between the cache test and
    the final deduplication: the relation mentions gathered document by
    document. *)


(** The regular-expression and replacement steps of [preprocess_text] on a
    non-empty string, a library computation. *)
Variable clean_text : string -> string.


(** [save_json_data] on the relations file: [false] is a raised filesystem
    error. *)
Variable save_json_data : list RelationMention -> bool.




End Relations.

End TextExtraction.

(* ================================================================== *)
(** ** src/api/app.py: the entity listing *)

Module App.
Import Py KGBuilder QAModel.

(** What a route returns: a payload, or an error with its HTTP status. *)
Inductive reply (A : Type) : Type :=
| Payload (a : A)
| Failure (status : Z).
Arguments Payload {A} a.
Arguments Failure {A} status.

(** [entity_type and data.get('type') != entity_type]. *)
Definition other_type (entity_type : option string) (data : dict json) : bool :=
  match entity_type with
  | None => false
  | Some t =>
      negb (String.eqb t "")
      && negb (match dict_get data "type" with
               | Some v => str_eq_json t v
               | None => false
               end)
  end.

(** The loop of [get_entities] over the nodes. *)
Fixpoint list_entities (nodes : dict (dict json)) (entity_type : option string)
         (limit : Z) (entities : list (dict json)) : list (dict json) :=
  match nodes with
  | [] => entities
  | (node, data) :: rest =>
      if other_type entity_type data
      then list_entities rest entity_type limit entities
      else
        let entities' := (entities ++ [retrieved_entity node data])%list in
        if (limit <=? Z.of_nat (List.length entities'))%Z
        then entities'
        else list_entities rest entity_type limit entities'
  end.

(** [get_entities]: the entities and their count.  [entity_type] is the
    [type] query argument, [limit] the integer read from the [limit] one. *)
Definition get_entities (graph : option DiGraph) (entity_type : option string)
           (limit : Z) : reply (list (dict json) * nat) :=
  match graph with
  | None => Failure 500
  | Some g =>
      match g_node g with
      | [] => Failure 500
      | nodes =>
          let entities := list_entities nodes entity_type limit [] in
          Payload (entities, List.length entities)
      end
  end.

End App.

(* ================================================================== *)
(** * Properties *)

Import Py KGBuilder NLPUtils QAModel TextExtraction App.

(** ** Dictionaries *)

Section DictFacts.
Context {V : Type}.
Implicit Types (d : dict V) (k : string) (v : V).

Lemma dict_get_set_same d k v : dict_get (dict_set d k v) k = Some v.
Proof.
  induction d as [|[k' v'] d IH]; simpl.
  - now rewrite String.eqb_refl.
  - destruct (String.eqb k k') eqn:E; simpl.
    + now rewrite String.eqb_refl.
    + now rewrite E.
Qed.

Lemma dict_get_set_other d k k' v :
  k' <> k -> dict_get (dict_set d k v) k' = dict_get d k'.
Proof.
  intros Hne. induction d as [|[k0 v0] d IH]; simpl.
  - destruct (String.eqb k' k) eqn:E; [apply String.eqb_eq in E; contradiction | reflexivity].
  - destruct (String.eqb k k0) eqn:E; simpl.
    + apply String.eqb_eq in E; subst k0.
      destruct (String.eqb k' k) eqn:E'; [apply String.eqb_eq in E'; contradiction | reflexivity].
    + destruct (String.eqb k' k0); [reflexivity | exact IH].
Qed.

Lemma dict_get_none_not_in d k :
  dict_get d k = None <-> ~ In k (dict_keys d).
Proof.
  induction d as [|[k' v'] d IH]; simpl.
  - tauto.
  - destruct (String.eqb k k') eqn:E.
    + apply String.eqb_eq in E; subst. split; [discriminate | intros H; exfalso; apply H; now left].
    + apply String.eqb_neq in E. rewrite IH. split.
      * intros H [H1 | H1]; [congruence | contradiction].
      * intros H H1; apply H; now right.
Qed.

Lemma dict_get_some_in d k v : dict_get d k = Some v -> In (k, v) d.
Proof.
  induction d as [|[k' v'] d IH]; simpl; [discriminate|].
  destruct (String.eqb k k') eqn:E.
  - apply String.eqb_eq in E; subst. intros [= ->]. now left.
  - intros H; right; auto.
Qed.

Lemma dict_in_get d k v :
  NoDup (dict_keys d) -> In (k, v) d -> dict_get d k = Some v.
Proof.
  induction d as [|[k' v'] d IH]; simpl; [tauto|].
  intros Hnd [H | H]; inversion Hnd as [|? ? Hni Hnd']; subst.
  - inversion H; subst. now rewrite String.eqb_refl.
  - destruct (String.eqb k k') eqn:E.
    + apply String.eqb_eq in E; subst. exfalso; apply Hni.
      change k' with (fst (k', v)). now apply in_map.
    + auto.
Qed.

(** Assigning to a fresh key appends. *)
Lemma dict_set_fresh d k v :
  dict_get d k = None -> dict_set d k v = (d ++ [(k, v)])%list.
Proof.
  induction d as [|[k' v'] d IH]; simpl; [reflexivity|].
  destruct (String.eqb k k'); [discriminate|].
  intros H; now rewrite IH.
Qed.

(** Assigning to a key already there replaces the value in place. *)
Lemma dict_set_present d k v v0 :
  dict_get d k = Some v0 ->
  exists d1 d2,
    d = (d1 ++ (k, v0) :: d2)%list /\ dict_get d1 k = None /\
    dict_set d k v = (d1 ++ (k, v) :: d2)%list.
Proof.
  induction d as [|[k' v'] d IH]; simpl; [discriminate|].
  destruct (String.eqb k k') eqn:E.
  - apply String.eqb_eq in E; subst. intros [= ->].
    exists [], d. simpl. auto.
  - intros H. destruct (IH H) as (d1 & d2 & -> & Hn & Hs).
    exists ((k', v') :: d1), d2. simpl. rewrite E, Hs. auto.
Qed.

Lemma dict_keys_set_present d k v v0 :
  dict_get d k = Some v0 -> dict_keys (dict_set d k v) = dict_keys d.
Proof.
  intros H. destruct (dict_set_present d k v v0 H) as (d1 & d2 & -> & _ & ->).
  unfold dict_keys. now rewrite !map_app.
Qed.

Lemma dict_keys_set_fresh d k v :
  dict_get d k = None -> dict_keys (dict_set d k v) = (dict_keys d ++ [k])%list.
Proof.
  intros H. rewrite (dict_set_fresh d k v H). unfold dict_keys. now rewrite map_app.
Qed.

Lemma dict_set_nodup d k v :
  NoDup (dict_keys d) -> NoDup (dict_keys (dict_set d k v)).
Proof.
  intros Hnd. destruct (dict_get d k) as [v0|] eqn:E.
  - now rewrite (dict_keys_set_present d k v v0 E).
  - rewrite (dict_keys_set_fresh d k v E).
    apply NoDup_app; [exact Hnd | repeat constructor; simpl; tauto |].
    intros a Ha [<- | []]. now apply dict_get_none_not_in in E.
Qed.

Lemma dict_length_set_present d k v v0 :
  dict_get d k = Some v0 -> List.length (dict_set d k v) = List.length d.
Proof.
  intros H. destruct (dict_set_present d k v v0 H) as (d1 & d2 & -> & _ & ->).
  now rewrite !length_app.
Qed.

(** With unique keys, a lookup pins the position of the entry. *)
Lemma dict_get_split d k v :
  NoDup (dict_keys d) -> dict_get d k = Some v ->
  exists d1 d2,
    d = (d1 ++ (k, v) :: d2)%list /\ ~ In k (dict_keys d1) /\ ~ In k (dict_keys d2).
Proof.
  intros Hnd H. apply dict_get_some_in in H.
  destruct (in_split _ _ H) as (d1 & d2 & ->).
  exists d1, d2. split; [reflexivity|].
  unfold dict_keys in *. rewrite map_app in Hnd. simpl in Hnd.
  apply NoDup_remove_2 in Hnd. split; intros Hin; apply Hnd, in_or_app; auto.
Qed.

End DictFacts.

(** ** Loops that merge a list into a dict by key

    Both deduplicators run a loop whose step either appends an entry under a
    fresh key or replaces the value stored under a key already there, and the
    stored value always carries that key. *)

Section KeyedFold.
Context {A : Type}.
Variable key : A -> string.
Variable step : dict A -> A -> dict A.

Definition keyed (d : dict A) : Prop :=
  forall k v, In (k, v) d -> key v = k.

Hypothesis step_cases : forall d x, keyed d ->
  (dict_get d (key x) = None /\
   exists v, key v = key x /\ step d x = (d ++ [(key x, v)])%list)
  \/
  (exists c v, dict_get d (key x) = Some c /\ key v = key x /\
               step d x = dict_set d (key x) v).

Lemma step_keys_extend d x :
  keyed d -> exists extra, dict_keys (step d x) = (dict_keys d ++ extra)%list.
Proof.
  intros Hk.
  destruct (step_cases d x Hk) as [(Hn & v & _ & ->) | (c & v & Hs & _ & ->)].
  - exists [key x]. unfold dict_keys. now rewrite map_app.
  - exists []. rewrite (dict_keys_set_present _ _ _ _ Hs). now rewrite app_nil_r.
Qed.

Lemma step_nodup d x :
  keyed d -> NoDup (dict_keys d) -> NoDup (dict_keys (step d x)).
Proof.
  intros Hk Hnd.
  destruct (step_cases d x Hk) as [(Hn & v & _ & ->) | (c & v & Hs & _ & ->)].
  - rewrite <- (dict_set_fresh d (key x) v Hn). now apply dict_set_nodup.
  - now apply dict_set_nodup.
Qed.

Lemma step_keyed d x : keyed d -> keyed (step d x).
Proof.
  intros Hk.
  destruct (step_cases d x Hk) as [(Hn & v & Hv & ->) | (c & v & Hs & Hv & ->)].
  - intros k w Hin. apply in_app_or in Hin as [Hin | [[= <- <-] | []]]; auto.
  - destruct (dict_set_present d (key x) v c Hs) as (d1 & d2 & -> & _ & ->).
    intros k w Hin. apply in_app_or in Hin as [Hin | [[= <- <-] | Hin]]; auto.
    + apply Hk, in_or_app; auto.
    + apply Hk, in_or_app; right; now right.
Qed.

Lemma step_get_other d x k :
  keyed d -> k <> key x -> dict_get (step d x) k = dict_get d k.
Proof.
  intros Hk Hne.
  destruct (step_cases d x Hk) as [(Hn & v & _ & ->) | (c & v & Hs & _ & ->)].
  - rewrite <- (dict_set_fresh d (key x) v Hn). now apply dict_get_set_other.
  - now apply dict_get_set_other.
Qed.

Lemma step_get_same d x :
  keyed d -> exists v, dict_get (step d x) (key x) = Some v.
Proof.
  intros Hk.
  destruct (step_cases d x Hk) as [(Hn & v & _ & ->) | (c & v & Hs & _ & ->)];
    exists v.
  - rewrite <- (dict_set_fresh d (key x) v Hn). apply dict_get_set_same.
  - apply dict_get_set_same.
Qed.

Lemma fold_keyed xs : forall d, keyed d -> keyed (fold_left step xs d).
Proof.
  induction xs as [|x xs IH]; simpl; intros d H; [exact H|].
  apply IH. now apply step_keyed.
Qed.

Lemma fold_nodup xs : forall d,
  keyed d -> NoDup (dict_keys d) -> NoDup (dict_keys (fold_left step xs d)).
Proof.
  induction xs as [|x xs IH]; simpl; intros d Hk H; [exact H|].
  apply IH; [now apply step_keyed | now apply step_nodup].
Qed.

Lemma fold_keys_extend xs : forall d,
  keyed d ->
  exists extra, dict_keys (fold_left step xs d) = (dict_keys d ++ extra)%list.
Proof.
  induction xs as [|x xs IH]; simpl; intros d Hk.
  - exists []. now rewrite app_nil_r.
  - destruct (IH (step d x) (step_keyed d x Hk)) as (e1 & ->).
    destruct (step_keys_extend d x Hk) as (e2 & ->).
    exists (e2 ++ e1)%list. now rewrite app_assoc.
Qed.

(** A key is in the final dict exactly when it was there at the start or is
    the key of an element of the list. *)
Lemma fold_get_none xs : forall d k,
  keyed d ->
  (dict_get (fold_left step xs d) k = None <->
   dict_get d k = None /\ forall x, In x xs -> key x <> k).
Proof.
  induction xs as [|x xs IH]; simpl; intros d k Hk.
  - split; [intros H; split; [exact H | tauto] | tauto].
  - rewrite (IH _ _ (step_keyed d x Hk)). split.
    + intros (H1 & H2).
      assert (Hne : k <> key x).
      { intros ->. destruct (step_get_same d x Hk) as (v & Hv). congruence. }
      rewrite (step_get_other d x k Hk Hne) in H1. split; [exact H1|].
      intros y [<- | Hy]; [congruence | auto].
    + intros (H1 & H2). split; [|intros y Hy; apply H2; now right].
      rewrite step_get_other; [exact H1 | exact Hk |].
      intros ->. now apply (H2 x); [left|].
Qed.

(** With unique keys and keyed values, the values stored under a key are
    exactly the one the lookup returns. *)
Lemma keyed_filter_values d k v :
  keyed d -> NoDup (dict_keys d) -> dict_get d k = Some v ->
  filter (fun x => String.eqb (key x) k) (dict_values d) = [v].
Proof.
  intros Hk Hnd Hg.
  destruct (dict_get_split d k v Hnd Hg) as (d1 & d2 & -> & H1 & H2).
  unfold dict_values. rewrite map_app, filter_app. simpl.
  assert (Hv : key v = k) by (apply Hk, in_or_app; right; now left).
  rewrite Hv, String.eqb_refl.
  assert (Hnone : forall d', (forall a b, In (a, b) d' -> In (a, b) (d1 ++ (k, v) :: d2)%list) ->
                             ~ In k (dict_keys d') ->
                             filter (fun x => String.eqb (key x) k) (map snd d') = []).
  { induction d' as [|[a b] d' IH]; simpl; intros Hsub Hni; [reflexivity|].
    assert (Hab : key b = a) by (apply Hk, Hsub; now left).
    destruct (String.eqb (key b) k) eqn:E.
    - apply String.eqb_eq in E. exfalso; apply Hni; left; congruence.
    - apply IH; [intros; apply Hsub; now right | intros Hin; apply Hni; now right]. }
  rewrite (Hnone d1), (Hnone d2); auto.
  - intros a b Hin; apply in_or_app; right; now right.
  - intros a b Hin; apply in_or_app; now left.
Qed.

End KeyedFold.

Lemma dict_set_same_value {V : Type} (d : dict V) (k : string) (v : V) :
  dict_get d k = Some v -> dict_set d k v = d.
Proof.
  induction d as [|[k' v'] d IH]; simpl; [discriminate|].
  destruct (String.eqb k k') eqn:E.
  - apply String.eqb_eq in E; subst. now intros [= ->].
  - intros H. now rewrite IH.
Qed.

(** ** Comparison of floats

    Python's [<] on floats is the IEEE 754 comparison: a strict order once
    NaN is set apart. *)

(** [math.isnan(f)], that is [f != f]. *)
Definition isnan (f : float) : bool := negb (PrimFloat.eqb f f).

Ltac sf_compare :=
  repeat match goal with
  | |- context [Z.compare ?a ?b] => destruct (Z.compare_spec a b); subst
  | H : context [Z.compare ?a ?b] |- _ => destruct (Z.compare_spec a b); subst
  | |- context [Pos.compare_cont Eq ?a ?b] =>
      change (Pos.compare_cont Eq a b) with (Pos.compare a b);
      destruct (Pos.compare_spec a b); subst
  | H : context [Pos.compare_cont Eq ?a ?b] |- _ =>
      change (Pos.compare_cont Eq a b) with (Pos.compare a b) in H;
      destruct (Pos.compare_spec a b); subst
  end; simpl in *; try discriminate; try reflexivity; try lia.

Lemma SFltb_trans x y z :
  SFltb x y = true -> SFltb y z = true -> SFltb x z = true.
Proof.
  unfold SFltb, SFcompare.
  destruct x as [sx|sx| |sx mx ex], y as [sy|sy| |sy my ey],
           z as [sz|sz| |sz mz ez];
    try destruct sx; try destruct sy; try destruct sz; simpl;
    try discriminate; try reflexivity; intros; sf_compare.
Qed.

Lemma SFltb_le_lt x y z :
  x <> S754_nan -> y <> S754_nan -> z <> S754_nan ->
  SFltb y x = false -> SFltb y z = true -> SFltb x z = true.
Proof.
  unfold SFltb, SFcompare.
  destruct x as [sx|sx| |sx mx ex], y as [sy|sy| |sy my ey],
           z as [sz|sz| |sz mz ez];
    try destruct sx; try destruct sy; try destruct sz; simpl;
    try discriminate; try reflexivity; try congruence; intros; sf_compare.
Qed.

Lemma isnan_false x : isnan x = false -> Prim2SF x <> S754_nan.
Proof.
  unfold isnan. rewrite eqb_spec. intros H E. rewrite E in H. discriminate.
Qed.

Lemma float_ltb_trans x y z :
  PrimFloat.ltb x y = true -> PrimFloat.ltb y z = true ->
  PrimFloat.ltb x z = true.
Proof. rewrite !ltb_spec. apply SFltb_trans. Qed.

Lemma float_le_lt_trans x y z :
  isnan x = false -> isnan y = false -> isnan z = false ->
  PrimFloat.ltb y x = false -> PrimFloat.ltb y z = true ->
  PrimFloat.ltb x z = true.
Proof.
  rewrite !ltb_spec. intros Hx Hy Hz.
  apply SFltb_le_lt; now apply isnan_false.
Qed.

(** ** Relation deduplication *)

Lemma keyed_nil {A : Type} (key : A -> string) : keyed key [].
Proof. intros k v []. Qed.

Lemma keyed_get {A : Type} (key : A -> string) (d : dict A) k v :
  keyed key d -> dict_get d k = Some v -> key v = k.
Proof. intros Hk H. apply Hk. now apply dict_get_some_in. Qed.

Lemma dedup_relation_step_cases d x :
  keyed relation_key d ->
  (dict_get d (relation_key x) = None /\
   exists v, relation_key v = relation_key x /\
             dedup_relation_step d x = (d ++ [(relation_key x, v)])%list)
  \/
  (exists c v, dict_get d (relation_key x) = Some c /\
               relation_key v = relation_key x /\
               dedup_relation_step d x = dict_set d (relation_key x) v).
Proof.
  intros Hk. unfold dedup_relation_step.
  destruct (dict_get d (relation_key x)) as [c|] eqn:E.
  - right. destruct (PrimFloat.ltb (confidence c) (confidence x)).
    + exists c, x. auto.
    + exists c, c. split; [reflexivity|]. split.
      * now apply (keyed_get relation_key d).
      * symmetry. now apply dict_set_same_value.
  - left. split; [reflexivity|]. exists x. split; [reflexivity|].
    now apply dict_set_fresh.
Qed.

(** What the loop does to the value kept under one key. *)
Definition pick (kept : option Relation) (r : Relation) : option Relation :=
  match kept with
  | None => Some r
  | Some c =>
      if PrimFloat.ltb (confidence c) (confidence r) then Some r else Some c
  end.

Definition pick_for (k : string) (kept : option Relation) (r : Relation)
  : option Relation :=
  if String.eqb (relation_key r) k then pick kept r else kept.

Lemma dedup_relation_step_get d x k :
  dict_get (dedup_relation_step d x) k = pick_for k (dict_get d k) x.
Proof.
  unfold dedup_relation_step, pick_for.
  destruct (String.eqb (relation_key x) k) eqn:E.
  - apply String.eqb_eq in E; subst k. unfold pick.
    destruct (dict_get d (relation_key x)) as [c|] eqn:G.
    + destruct (PrimFloat.ltb (confidence c) (confidence x));
        [apply dict_get_set_same | exact G].
    + apply dict_get_set_same.
  - apply String.eqb_neq in E.
    destruct (dict_get d (relation_key x)) as [c|] eqn:G.
    + destruct (PrimFloat.ltb (confidence c) (confidence x));
        [apply dict_get_set_other; congruence | reflexivity].
    + apply dict_get_set_other; congruence.
Qed.

Lemma dedup_relation_fold_get xs : forall d k,
  dict_get (fold_left dedup_relation_step xs d) k =
  fold_left (pick_for k) xs (dict_get d k).
Proof.
  induction xs as [|x xs IH]; simpl; intros d k; [reflexivity|].
  now rewrite IH, dedup_relation_step_get.
Qed.

(** The value kept for a key [k] once some relation [c] is stored: either [c]
    stays because nothing later beats it, or the survivor is a later
    occurrence, strictly above everything of that key before it and not
    below anything of that key after it. *)
Lemma pick_fold_some k xs : forall c,
  isnan (confidence c) = false ->
  Forall (fun x => isnan (confidence x) = false) xs ->
  exists s,
    fold_left (pick_for k) xs (Some c) = Some s /\
    ((s = c /\
      forall x, In x xs -> relation_key x = k ->
                PrimFloat.ltb (confidence c) (confidence x) = false)
     \/
     (exists pre post,
        xs = (pre ++ s :: post)%list /\ relation_key s = k /\
        PrimFloat.ltb (confidence c) (confidence s) = true /\
        (forall x, In x pre -> relation_key x = k ->
                   PrimFloat.ltb (confidence x) (confidence s) = true) /\
        (forall x, In x post -> relation_key x = k ->
                   PrimFloat.ltb (confidence s) (confidence x) = false))).
Proof.
  induction xs as [|x xs IH]; simpl; intros c Hc Hxs.
  - exists c. split; [reflexivity|]. left. split; [reflexivity | tauto].
  - inversion Hxs as [|? ? Hx Hxs']; subst.
    unfold pick_for at 2.
    destruct (String.eqb (relation_key x) k) eqn:E; simpl.
    + apply String.eqb_eq in E.
      destruct (PrimFloat.ltb (confidence c) (confidence x)) eqn:L.
      * destruct (IH x Hx Hxs')
          as (s & Hs & [(-> & Hall) | (pre & post & -> & Hk & Hlt & Hpre & Hpost)]).
        -- exists x. split; [exact Hs|]. right. exists [], xs. simpl.
           split; [reflexivity|]. split; [exact E|]. split; [exact L|].
           split; [intros y [] | exact Hall].
        -- exists s. split; [exact Hs|]. right. exists (x :: pre), post. simpl.
           split; [reflexivity|]. split; [exact Hk|].
           split; [now apply float_ltb_trans with (confidence x)|].
           split; [|exact Hpost].
           intros y [<- | Hy] Hyk; auto.
      * destruct (IH c Hc Hxs')
          as (s & Hs & [(-> & Hall) | (pre & post & -> & Hk & Hlt & Hpre & Hpost)]).
        -- exists c. split; [exact Hs|]. left. split; [reflexivity|].
           intros y [<- | Hy] Hyk; auto.
        -- exists s. split; [exact Hs|]. right. exists (x :: pre), post. simpl.
           split; [reflexivity|]. split; [exact Hk|]. split; [exact Hlt|].
           split; [|exact Hpost].
           intros y [<- | Hy] Hyk; auto.
           apply float_le_lt_trans with (confidence c); auto.
           rewrite Forall_forall in Hxs'. apply Hxs', in_or_app; right; now left.
    + apply String.eqb_neq in E.
      destruct (IH c Hc Hxs')
        as (s & Hs & [(-> & Hall) | (pre & post & -> & Hk & Hlt & Hpre & Hpost)]).
      * exists c. split; [exact Hs|]. left. split; [reflexivity|].
        intros y [<- | Hy] Hyk; [contradiction | auto].
      * exists s. split; [exact Hs|]. right. exists (x :: pre), post. simpl.
        split; [reflexivity|]. split; [exact Hk|]. split; [exact Hlt|].
        split; [|exact Hpost].
        intros y [<- | Hy] Hyk; [contradiction | auto].
Qed.

Lemma pick_fold_none k xs :
  Forall (fun x => isnan (confidence x) = false) xs ->
  (exists r, In r xs /\ relation_key r = k) ->
  exists pre s post,
    xs = (pre ++ s :: post)%list /\ relation_key s = k /\
    fold_left (pick_for k) xs None = Some s /\
    (forall x, In x pre -> relation_key x = k ->
               PrimFloat.ltb (confidence x) (confidence s) = true) /\
    (forall x, In x post -> relation_key x = k ->
               PrimFloat.ltb (confidence s) (confidence x) = false).
Proof.
  induction xs as [|x xs IH]; simpl; intros Hxs (r & Hr & Hrk); [contradiction|].
  inversion Hxs as [|? ? Hx Hxs']; subst.
  unfold pick_for at 2.
  destruct (String.eqb (relation_key x) (relation_key r)) eqn:E; simpl.
  - apply String.eqb_eq in E.
    destruct (pick_fold_some (relation_key r) xs x Hx Hxs')
      as (s & Hs & [(-> & Hall) | (pre & post & -> & Hk & Hlt & Hpre & Hpost)]).
    + exists [], x, xs. simpl.
      split; [reflexivity|]. split; [exact E|]. split; [exact Hs|].
      split; [intros y [] | exact Hall].
    + exists (x :: pre), s, post. simpl.
      split; [reflexivity|]. split; [exact Hk|]. split; [exact Hs|].
      split; [|exact Hpost].
      intros y [<- | Hy] Hyk; auto.
  - apply String.eqb_neq in E.
    destruct Hr as [-> | Hr]; [congruence|].
    destruct (IH Hxs' (ex_intro _ r (conj Hr eq_refl)))
      as (pre & s & post & -> & Hk & Hs & Hpre & Hpost).
    exists (x :: pre), s, post. simpl.
    split; [reflexivity|]. split; [exact Hk|]. split; [exact Hs|].
    split; [|exact Hpost].
    intros y [<- | Hy] Hyk; [contradiction | auto].
Qed.

Lemma dedup_relations_invariant xs :
  keyed relation_key (fold_left dedup_relation_step xs []) /\
  NoDup (dict_keys (fold_left dedup_relation_step xs [])).
Proof.
  split.
  - apply fold_keyed; [exact dedup_relation_step_cases | apply keyed_nil].
  - apply (fold_nodup relation_key);
      [exact dedup_relation_step_cases | apply keyed_nil | constructor].
Qed.

(** A list whose keys are pairwise distinct is merged into the dict entry by
    entry. *)
Lemma dedup_relations_fresh xs : forall d,
  NoDup (map relation_key xs) ->
  (forall x, In x xs -> dict_get d (relation_key x) = None) ->
  fold_left dedup_relation_step xs d =
  (d ++ map (fun x => (relation_key x, x)) xs)%list.
Proof.
  induction xs as [|x xs IH]; simpl; intros d Hnd Hfresh.
  - now rewrite app_nil_r.
  - inversion Hnd as [|? ? Hni Hnd']; subst.
    assert (Hx : dict_get d (relation_key x) = None) by (apply Hfresh; now left).
    unfold dedup_relation_step at 2. rewrite Hx.
    rewrite (dict_set_fresh d _ x Hx), IH; auto.
    + now rewrite <- app_assoc.
    + intros y Hy. rewrite <- (dict_set_fresh d _ x Hx).
      rewrite dict_get_set_other; [apply Hfresh; now right|].
      intros Heq. apply Hni. rewrite <- Heq. now apply in_map.
Qed.

Lemma keyed_values_keys {A : Type} (key : A -> string) (d : dict A) :
  keyed key d -> map key (dict_values d) = dict_keys d.
Proof.
  induction d as [|[k v] d IH]; simpl; intros Hk; [reflexivity|].
  rewrite (Hk k v) by now left. f_equal. apply IH.
  intros k' v' Hin. apply Hk. now right.
Qed.

Lemma map_snd_pair {A : Type} (key : A -> string) (xs : list A) :
  map snd (map (fun x => (key x, x)) xs) = xs.
Proof. induction xs; simpl; congruence. Qed.

Lemma dedup_relations_idempotent relations :
  _deduplicate_relations (_deduplicate_relations relations) =
  _deduplicate_relations relations.
Proof.
  unfold _deduplicate_relations.
  destruct (dedup_relations_invariant relations) as (Hk & Hnd).
  set (d := fold_left dedup_relation_step relations []) in *.
  rewrite dedup_relations_fresh; simpl.
  - unfold dict_values at 1. apply map_snd_pair.
  - now rewrite keyed_values_keys.
  - reflexivity.
Qed.

(** C1. For every list of relation mentions (confidences being numbers, not
    NaN) and every mention [r] of it, the deduplicated list holds exactly one
    relation with the identity key of [r]; that survivor [s] is an occurrence
    of the input whose confidence is maximal among the occurrences with that
    key, and it is the first such occurrence: every colliding occurrence
    before it has a strictly smaller confidence, and no colliding occurrence
    after it has a greater one. *)
Theorem C1_relation_dedup_keeps_first_maximum :
  forall relations r,
    Forall (fun x => isnan (confidence x) = false) relations ->
    In r relations ->
    exists pre s post,
      relations = (pre ++ s :: post)%list /\
      relation_key s = relation_key r /\
      filter (fun x => String.eqb (relation_key x) (relation_key r))
             (_deduplicate_relations relations) = [s] /\
      (forall x, In x pre -> relation_key x = relation_key r ->
                 PrimFloat.ltb (confidence x) (confidence s) = true) /\
      (forall x, In x post -> relation_key x = relation_key r ->
                 PrimFloat.ltb (confidence s) (confidence x) = false).
Proof.
  intros relations r Hnan Hr.
  destruct (pick_fold_none (relation_key r) relations Hnan
                           (ex_intro _ r (conj Hr eq_refl)))
    as (pre & s & post & Heq & Hk & Hs & Hpre & Hpost).
  exists pre, s, post. repeat split; auto.
  unfold _deduplicate_relations.
  destruct (dedup_relations_invariant relations) as (Hkeyed & Hnd).
  apply keyed_filter_values; auto.
  rewrite dedup_relation_fold_get. exact Hs.
Qed.

Definition sample_relation (confidence : float) (description : string)
  : Relation :=
  mkRelation 0 "药物" "胰岛素" 1 "疾病" "糖尿病" "治疗"
             (Some description) (Some confidence).

Definition sample_relations : list Relation :=
  [ sample_relation 0.7%float "a";
    sample_relation 0.9%float "b";
    mkRelation 0 "药物" "胰岛素" 1 "疾病" "糖尿病" "预防" None None;
    sample_relation 0.9%float "c" ].

Lemma C1_relation_dedup_witness :
  exists pre s post,
    sample_relations = (pre ++ s :: post)%list /\
    relation_key s = relation_key (sample_relation 0.7%float "a") /\
    filter (fun x => String.eqb (relation_key x)
                                (relation_key (sample_relation 0.7%float "a")))
           (_deduplicate_relations sample_relations) = [s] /\
    (forall x, In x pre ->
               relation_key x = relation_key (sample_relation 0.7%float "a") ->
               PrimFloat.ltb (confidence x) (confidence s) = true) /\
    (forall x, In x post ->
               relation_key x = relation_key (sample_relation 0.7%float "a") ->
               PrimFloat.ltb (confidence s) (confidence x) = false).
Proof.
  apply (C1_relation_dedup_keeps_first_maximum
           sample_relations (sample_relation 0.7%float "a")).
  - repeat constructor.
  - simpl. auto.
Defined.

(** On the sample the survivor is the second mention: the first of the two
    that carry the greatest confidence. *)
Example dedup_relations_sample :
  _deduplicate_relations sample_relations =
  [ sample_relation 0.9%float "b";
    mkRelation 0 "药物" "胰岛素" 1 "疾病" "糖尿病" "预防" None None ].
Proof. vm_compute. reflexivity. Qed.

(** ** Entity deduplication *)

Lemma entity_key_set_id e i : entity_key (set_id e i) = entity_key e.
Proof. reflexivity. Qed.

Lemma entity_key_set_description e d :
  entity_key (set_description e d) = entity_key e.
Proof. reflexivity. Qed.

Lemma dedup_entity_step_cases d x :
  keyed entity_key d ->
  (dict_get d (entity_key x) = None /\
   exists v, entity_key v = entity_key x /\
             dedup_entity_step d x = (d ++ [(entity_key x, v)])%list)
  \/
  (exists c v, dict_get d (entity_key x) = Some c /\
               entity_key v = entity_key x /\
               dedup_entity_step d x = dict_set d (entity_key x) v).
Proof.
  intros Hk. unfold dedup_entity_step.
  destruct (dict_get d (entity_key x)) as [c|] eqn:E.
  - right.
    assert (Hc : entity_key c = entity_key x) by now apply (keyed_get entity_key d).
    destruct (has_description x); [destruct (has_description c); simpl|].
    + exists c, c. repeat split; auto. symmetry. now apply dict_set_same_value.
    + exists c, (set_description c (e_description x)). repeat split; auto.
    + exists c, c. repeat split; auto. symmetry. now apply dict_set_same_value.
  - left. split; [reflexivity|].
    exists (set_id x (Z.of_nat (List.length d))). split; [reflexivity|].
    now apply dict_set_fresh.
Qed.

(** The ids of a list of entities are [n], [n+1], ... in order. *)
Fixpoint ids_from (n : nat) (es : list Entity) : Prop :=
  match es with
  | [] => True
  | e :: es' => e_id e = Some (Z.of_nat n) /\ ids_from (S n) es'
  end.

Lemma ids_from_app es1 : forall n es2,
  ids_from n (es1 ++ es2) <->
  ids_from n es1 /\ ids_from (n + List.length es1) es2.
Proof.
  induction es1 as [|e es1 IH]; simpl; intros n es2.
  - rewrite Nat.add_0_r. tauto.
  - rewrite IH. replace (S n + List.length es1) with (n + S (List.length es1)) by lia.
    tauto.
Qed.

Lemma dedup_entity_step_ids d x :
  ids_from 0 (dict_values d) ->
  ids_from 0 (dict_values (dedup_entity_step d x)).
Proof.
  intros Hids. unfold dedup_entity_step.
  destruct (dict_get d (entity_key x)) as [c|] eqn:E.
  - destruct (has_description x); [|exact Hids].
    destruct (has_description c); simpl; [exact Hids|].
    destruct (dict_set_present d _ (set_description c (e_description x)) c E)
      as (d1 & d2 & -> & _ & ->).
    unfold dict_values in *. rewrite map_app in *. simpl in *.
    rewrite ids_from_app in *. simpl in *. tauto.
  - rewrite (dict_set_fresh d _ _ E).
    unfold dict_values in *. rewrite map_app. simpl.
    rewrite ids_from_app. simpl. rewrite length_map. auto.
Qed.

Lemma dedup_entities_invariant xs :
  let d := fold_left dedup_entity_step xs [] in
  keyed entity_key d /\ NoDup (dict_keys d) /\ ids_from 0 (dict_values d).
Proof.
  simpl. split; [|split].
  - apply fold_keyed; [exact dedup_entity_step_cases | apply keyed_nil].
  - apply (fold_nodup entity_key);
      [exact dedup_entity_step_cases | apply keyed_nil | constructor].
  - assert (H : forall d, ids_from 0 (dict_values d) ->
                          ids_from 0 (dict_values (fold_left dedup_entity_step xs d))).
    { induction xs as [|x xs IH]; simpl; intros d Hd; [exact Hd|].
      apply IH. now apply dedup_entity_step_ids. }
    apply H. exact I.
Qed.

Lemma set_id_same e i : e_id e = Some i -> set_id e i = e.
Proof. destruct e; simpl; intros ->; reflexivity. Qed.

(** Entities with pairwise distinct keys that already carry the ids the
    counter would give them are merged unchanged. *)
Lemma dedup_entities_fresh xs : forall d,
  NoDup (map entity_key xs) ->
  (forall x, In x xs -> dict_get d (entity_key x) = None) ->
  ids_from (List.length d) xs ->
  fold_left dedup_entity_step xs d =
  (d ++ map (fun x => (entity_key x, x)) xs)%list.
Proof.
  induction xs as [|x xs IH]; simpl; intros d Hnd Hfresh Hids.
  - now rewrite app_nil_r.
  - inversion Hnd as [|? ? Hni Hnd']; subst. destruct Hids as (Hid & Hids).
    assert (Hx : dict_get d (entity_key x) = None) by (apply Hfresh; now left).
    unfold dedup_entity_step at 2. rewrite Hx.
    rewrite (set_id_same x _ Hid).
    rewrite (dict_set_fresh d _ x Hx), IH; auto.
    + now rewrite <- app_assoc.
    + intros y Hy. rewrite <- (dict_set_fresh d _ x Hx).
      rewrite dict_get_set_other; [apply Hfresh; now right|].
      intros Heq. apply Hni. rewrite <- Heq. now apply in_map.
    + rewrite length_app. simpl. now rewrite Nat.add_1_r.
Qed.

Lemma dedup_entities_idempotent entities :
  _deduplicate_entities (_deduplicate_entities entities) =
  _deduplicate_entities entities.
Proof.
  unfold _deduplicate_entities.
  destruct (dedup_entities_invariant entities) as (Hk & Hnd & Hids).
  set (d := fold_left dedup_entity_step entities []) in *.
  rewrite dedup_entities_fresh; simpl.
  - unfold dict_values at 1. apply map_snd_pair.
  - now rewrite keyed_values_keys.
  - reflexivity.
  - exact Hids.
Qed.

(** C2. Both deduplicators are idempotent: running either one on its own
    output returns that output unchanged, ids and descriptions included. *)
Theorem C2_deduplicators_idempotent :
  (forall entities,
     _deduplicate_entities (_deduplicate_entities entities) =
     _deduplicate_entities entities) /\
  (forall relations,
     _deduplicate_relations (_deduplicate_relations relations) =
     _deduplicate_relations relations).
Proof.
  split; [exact dedup_entities_idempotent | exact dedup_relations_idempotent].
Qed.

(** What a later mention of the same key does to the canonical entity. *)
Definition backfill (canonical entity : Entity) : Entity :=
  if has_description entity then
    if negb (has_description canonical)
    then set_description canonical (e_description entity)
    else canonical
  else canonical.

Definition backfill_for (k : string) (canonical entity : Entity) : Entity :=
  if String.eqb (entity_key entity) k then backfill canonical entity
  else canonical.

(** The description of the first mention of a group that has a non-empty one;
    that of the first mention when none has. *)
Definition first_description (first : Entity) (later : list Entity)
  : option string :=
  if has_description first then e_description first
  else match find has_description later with
       | Some e => e_description e
       | None => e_description first
       end.

Lemma dedup_entity_step_get_present d x k c :
  dict_get d k = Some c ->
  dict_get (dedup_entity_step d x) k = Some (backfill_for k c x).
Proof.
  intros Hc. unfold dedup_entity_step, backfill_for, backfill.
  destruct (String.eqb (entity_key x) k) eqn:E.
  - apply String.eqb_eq in E; subst k. rewrite Hc.
    destruct (has_description x); [|exact Hc].
    destruct (has_description c); simpl; [exact Hc | apply dict_get_set_same].
  - apply String.eqb_neq in E.
    destruct (dict_get d (entity_key x)) as [c'|] eqn:G.
    + destruct (has_description x); [|exact Hc].
      destruct (has_description c'); simpl; [exact Hc|].
      rewrite dict_get_set_other; [exact Hc | congruence].
    + rewrite dict_get_set_other; [exact Hc | congruence].
Qed.

Lemma dedup_entity_fold_get_present xs : forall d k c,
  dict_get d k = Some c ->
  dict_get (fold_left dedup_entity_step xs d) k =
  Some (fold_left (backfill_for k) xs c).
Proof.
  induction xs as [|x xs IH]; simpl; intros d k c Hc; [exact Hc|].
  apply IH. now apply dedup_entity_step_get_present.
Qed.

Lemma set_description_same e : set_description e (e_description e) = e.
Proof. now destruct e. Qed.

Lemma backfill_fold k xs : forall c,
  fold_left (backfill_for k) xs c =
  set_description c
    (first_description c (filter (fun x => String.eqb (entity_key x) k) xs)).
Proof.
  induction xs as [|x xs IH]; simpl; intros c.
  - unfold first_description. simpl.
    destruct (has_description c); now rewrite set_description_same.
  - unfold backfill_for at 2.
    destruct (String.eqb (entity_key x) k) eqn:E; [|apply IH].
    rewrite IH. unfold backfill, first_description. simpl.
    destruct (has_description x) eqn:Hx.
    + destruct (has_description c) eqn:Hc; simpl.
      * now rewrite Hc.
      * assert (H : has_description (set_description c (e_description x)) = true)
          by exact Hx.
        rewrite H. simpl. now destruct c.
    + reflexivity.
Qed.

Lemma first_occurrence {A : Type} (key : A -> string) (xs : list A) m :
  In m xs ->
  exists pre f post,
    xs = (pre ++ f :: post)%list /\ key f = key m /\
    forall x, In x pre -> key x <> key m.
Proof.
  induction xs as [|x xs IH]; simpl; [tauto|]. intros Hin.
  destruct (string_dec (key x) (key m)) as [E | E].
  - exists [], x, xs. simpl. split; [reflexivity|]. split; [exact E | tauto].
  - destruct Hin as [-> | Hin]; [congruence|].
    destruct (IH Hin) as (pre & f & post & -> & Hf & Hpre).
    exists (x :: pre), f, post. simpl. split; [reflexivity|]. split; [exact Hf|].
    intros y [<- | Hy]; auto.
Qed.

Lemma dict_nth_key {V : Type} (d : dict V) i k :
  nth_error (dict_keys d) i = Some k -> exists v, nth_error d i = Some (k, v).
Proof.
  unfold dict_keys. rewrite nth_error_map.
  destruct (nth_error d i) as [[k' v]|]; simpl; [|discriminate].
  intros [= ->]. now exists v.
Qed.

(** C3. For every list of entity mentions and every mention [m] of it, let
    [f] be the first mention with the key of [m].  The deduplicated list holds
    exactly one entity [c] with that key.  It is [f] itself: its id was given
    once, from the counter, when [f] was met (the number of canonical entities
    made from the mentions before [f], which is also its position in the
    output); its description is the first non-empty description among the
    mentions of the key in input order (that of [f] when there is none); type,
    name, source document and attributes are those of [f]. *)
Theorem C3_entity_dedup_merges_by_key :
  forall entities m,
    In m entities ->
    exists pre f post c,
      entities = (pre ++ f :: post)%list /\
      entity_key f = entity_key m /\
      (forall x, In x pre -> entity_key x <> entity_key m) /\
      filter (fun x => String.eqb (entity_key x) (entity_key m))
             (_deduplicate_entities entities) = [c] /\
      nth_error (_deduplicate_entities entities)
                (List.length (_deduplicate_entities pre)) = Some c /\
      e_id c = Some (Z.of_nat (List.length (_deduplicate_entities pre))) /\
      e_description c =
        first_description
          f (filter (fun x => String.eqb (entity_key x) (entity_key m)) post) /\
      e_type c = e_type f /\ e_name c = e_name f /\
      e_source_doc c = e_source_doc f /\ e_attributes c = e_attributes f.
Proof.
  intros entities m Hm.
  destruct (first_occurrence entity_key entities m Hm)
    as (pre & f & post & Heq & Hf & Hpre).
  set (k := entity_key m) in *.
  destruct (dedup_entities_invariant entities) as (Hkeyed & Hnd & _).
  destruct (dedup_entities_invariant pre) as (Hkeyed1 & Hnd1 & _).
  set (d1 := fold_left dedup_entity_step pre []) in *.
  set (c0 := set_id f (Z.of_nat (List.length d1))).
  assert (Hfresh : dict_get d1 (entity_key f) = None).
  { rewrite Hf. apply (fold_get_none entity_key dedup_entity_step);
      [exact dedup_entity_step_cases | apply keyed_nil |].
    split; [reflexivity | exact Hpre]. }
  assert (Hstep : dedup_entity_step d1 f = (d1 ++ [(k, c0)])%list).
  { unfold dedup_entity_step. rewrite Hfresh. rewrite <- Hf.
    now apply dict_set_fresh. }
  assert (Hfold : fold_left dedup_entity_step entities [] =
                  fold_left dedup_entity_step post (d1 ++ [(k, c0)])%list).
  { rewrite Heq, fold_left_app. simpl. fold d1. now rewrite Hstep. }
  assert (Hkeyed2 : keyed entity_key (d1 ++ [(k, c0)])%list).
  { rewrite <- Hstep. apply (step_keyed entity_key dedup_entity_step);
      [exact dedup_entity_step_cases | exact Hkeyed1]. }
  assert (Hget2 : dict_get (d1 ++ [(k, c0)])%list k = Some c0).
  { rewrite <- (dict_set_fresh d1 k c0) by (now rewrite <- Hf).
    apply dict_get_set_same. }
  set (c := fold_left (backfill_for k) post c0).
  assert (Hget : dict_get (fold_left dedup_entity_step entities []) k = Some c).
  { rewrite Hfold. now apply dedup_entity_fold_get_present. }
  assert (Hlen : List.length (_deduplicate_entities pre) = List.length d1).
  { unfold _deduplicate_entities, dict_values. now rewrite length_map. }
  assert (Hc : c = set_description c0
                 (first_description
                    f (filter (fun x => String.eqb (entity_key x) k) post))).
  { unfold c. rewrite backfill_fold. reflexivity. }
  exists pre, f, post, c.
  split; [exact Heq|]. split; [exact Hf|]. split; [exact Hpre|].
  split; [now apply keyed_filter_values|].
  split.
  { rewrite Hlen. unfold _deduplicate_entities, dict_values.
    rewrite nth_error_map.
    destruct (fold_keys_extend entity_key dedup_entity_step
                dedup_entity_step_cases post _ Hkeyed2) as (extra & Hext).
    rewrite <- Hfold in Hext.
    assert (Hnth : nth_error (dict_keys (fold_left dedup_entity_step entities []))
                             (List.length d1) = Some k).
    { rewrite Hext. unfold dict_keys at 1. rewrite map_app. simpl.
      rewrite <- app_assoc. simpl.
      rewrite nth_error_app2; rewrite length_map; [|lia].
      now rewrite Nat.sub_diag. }
    destruct (dict_nth_key _ _ _ Hnth) as (v & Hv).
    rewrite Hv. simpl. f_equal.
    assert (Hin : dict_get (fold_left dedup_entity_step entities []) k = Some v).
    { apply dict_in_get; [exact Hnd | now apply nth_error_In with (List.length d1)]. }
    congruence. }
  rewrite Hc, Hlen. simpl. repeat split; reflexivity.
Qed.

Definition sample_mention (type name : string) (description : option string)
  : Entity :=
  mkEntity type name None "糖尿病.txt" description None.

Definition sample_mentions : list Entity :=
  [ sample_mention "药物" "胰岛素" None;
    sample_mention "疾病" "糖尿病" (Some "");
    sample_mention "疾病" "糖尿病" (Some "代谢性疾病");
    sample_mention "疾病" "糖尿病" (Some "慢性病") ].

Lemma C3_entity_dedup_witness :
  exists pre f post c,
    sample_mentions = (pre ++ f :: post)%list /\
    entity_key f = entity_key (sample_mention "疾病" "糖尿病" (Some "慢性病")) /\
    (forall x, In x pre ->
       entity_key x <> entity_key (sample_mention "疾病" "糖尿病" (Some "慢性病"))) /\
    filter (fun x => String.eqb (entity_key x)
                       (entity_key (sample_mention "疾病" "糖尿病" (Some "慢性病"))))
           (_deduplicate_entities sample_mentions) = [c] /\
    nth_error (_deduplicate_entities sample_mentions)
              (List.length (_deduplicate_entities pre)) = Some c /\
    e_id c = Some (Z.of_nat (List.length (_deduplicate_entities pre))) /\
    e_description c =
      first_description
        f (filter (fun x => String.eqb (entity_key x)
                     (entity_key (sample_mention "疾病" "糖尿病" (Some "慢性病"))))
                  post) /\
    e_type c = e_type f /\ e_name c = e_name f /\
    e_source_doc c = e_source_doc f /\ e_attributes c = e_attributes f.
Proof.
  apply (C3_entity_dedup_merges_by_key
           sample_mentions (sample_mention "疾病" "糖尿病" (Some "慢性病"))).
  simpl. auto.
Defined.

(** On the sample the three mentions of the disease become one entity, with
    id 1 and the first non-empty description. *)
Example dedup_entities_sample :
  _deduplicate_entities sample_mentions =
  [ mkEntity "药物" "胰岛素" (Some 0%Z) "糖尿病.txt" None None;
    mkEntity "疾病" "糖尿病" (Some 1%Z) "糖尿病.txt" (Some "代谢性疾病") None ].
Proof. vm_compute. reflexivity. Qed.

(** ** The rendered keys identify the fields they are built from

    The keys are strings with [":"] between the fields.  They stand for the
    tuple of fields whenever the type names hold no colon, which is the case
    of every entity type the builder declares. *)

Fixpoint colon_free (s : string) : bool :=
  match s with
  | EmptyString => true
  | String a s' => negb (Ascii.eqb a ":") && colon_free s'
  end.

(** [self.entity_types]. *)
Definition entity_types : list string :=
  [ "疾病"; "症状"; "药物"; "治疗方法"; "检查项目";
    "解剖部位"; "病因"; "并发症"; "医院"; "科室" ].

Lemma entity_types_colon_free : forallb colon_free entity_types = true.
Proof. vm_compute. reflexivity. Qed.

Lemma append_colon_inj a : forall a' b b',
  colon_free a = true -> colon_free a' = true ->
  a ++ ":" ++ b = a' ++ ":" ++ b' -> a = a' /\ b = b'.
Proof.
  induction a as [|x a IH]; intros [|x' a'] b b'; simpl; intros Ha Ha' H.
  - inversion H. auto.
  - inversion H; subst. now rewrite Ascii.eqb_refl in Ha'.
  - inversion H; subst. now rewrite Ascii.eqb_refl in Ha.
  - inversion H; subst.
    apply andb_true_iff in Ha as (_ & Ha). apply andb_true_iff in Ha' as (_ & Ha').
    destruct (IH a' b b' Ha Ha' H2) as (-> & ->). auto.
Qed.

Lemma colon_free_uint d : colon_free (NilEmpty.string_of_uint d) = true.
Proof. induction d; simpl; auto. Qed.

Lemma colon_free_str_of_int n : colon_free (str_of_int n) = true.
Proof.
  unfold str_of_int.
  destruct (Z.to_int n) as [d | d]; simpl;
    destruct d; simpl; auto using colon_free_uint.
Qed.

Lemma str_of_int_inj a b : str_of_int a = str_of_int b -> a = b.
Proof.
  unfold str_of_int. intros H. apply to_int_inj.
  assert (Hn : forall z, Z.to_int z <> Decimal.Pos Decimal.Nil /\
                         Z.to_int z <> Decimal.Neg Decimal.Nil).
  { intros [|p|p]; simpl; split; try discriminate;
      intros [= E]; now apply DecimalPos.Unsigned.to_uint_nonnil in E. }
  destruct (Hn a) as (Ha1 & Ha2), (Hn b) as (Hb1 & Hb2).
  apply NilZero.isi in Ha2; [|exact Ha1]. apply NilZero.isi in Hb2; [|exact Hb1].
  congruence.
Qed.

Lemma entity_key_identity e1 e2 :
  colon_free (e_type e1) = true -> colon_free (e_type e2) = true ->
  (entity_key e1 = entity_key e2 <->
   e_type e1 = e_type e2 /\ e_name e1 = e_name e2).
Proof.
  intros H1 H2. unfold entity_key. split.
  - now apply append_colon_inj.
  - now intros (-> & ->).
Qed.

Lemma relation_key_identity r1 r2 :
  colon_free (r_source_type r1) = true -> colon_free (r_target_type r1) = true ->
  colon_free (r_source_type r2) = true -> colon_free (r_target_type r2) = true ->
  (relation_key r1 = relation_key r2 <->
   r_source_type r1 = r_source_type r2 /\ r_source_id r1 = r_source_id r2 /\
   r_target_type r1 = r_target_type r2 /\ r_target_id r1 = r_target_id r2 /\
   r_relation_type r1 = r_relation_type r2).
Proof.
  intros Hs1 Ht1 Hs2 Ht2. unfold relation_key. split.
  - intros H.
    apply append_colon_inj in H as (E1 & H); auto.
    apply append_colon_inj in H as (E2 & H); auto using colon_free_str_of_int.
    apply append_colon_inj in H as (E3 & H); auto.
    apply append_colon_inj in H as (E4 & E5); auto using colon_free_str_of_int.
    apply str_of_int_inj in E2, E4. auto.
  - now intros (-> & -> & -> & -> & ->).
Qed.

(** ** Graph assembly *)

(** [G[u][v]], when the edge is there. *)
Definition edge_lookup (g : DiGraph) (u v : string) : option (dict json) :=
  match dict_get (g_succ g) u with
  | Some nbrs => dict_get nbrs v
  | None => None
  end.

(** The shape of a graph under construction: nodes and adjacency have the
    same keys, keys are unique at both levels, the endpoints of every edge
    are nodes, and every edge carries the attributes of some relation. *)
Record graph_ok (g : DiGraph) : Prop := mk_graph_ok {
  ok_keys : dict_keys (g_node g) = dict_keys (g_succ g);
  ok_nodup : NoDup (dict_keys (g_succ g));
  ok_nbrs : forall u nbrs, dict_get (g_succ g) u = Some nbrs ->
                           NoDup (dict_keys nbrs);
  ok_ends : forall u v d, edge_lookup g u v = Some d ->
                          dict_has (g_node g) u = true /\
                          dict_has (g_node g) v = true;
  ok_data : forall u v d, edge_lookup g u v = Some d ->
                          exists r, d = edge_attrs r
}.

Lemma dict_has_true {V : Type} (d : dict V) k :
  dict_has d k = true <-> In k (dict_keys d).
Proof.
  unfold dict_has. destruct (dict_get d k) eqn:E.
  - split; [intros _|reflexivity].
    apply dict_get_some_in in E. change k with (fst (k, v)). now apply in_map.
  - split; [discriminate|]. intros H. now apply dict_get_none_not_in in E.
Qed.

Lemma dict_has_get {V : Type} (d : dict V) k :
  dict_has d k = true -> exists v, dict_get d k = Some v.
Proof.
  unfold dict_has. destruct (dict_get d k) as [v|]; [now exists v | discriminate].
Qed.

Lemma dict_has_same_keys {V W : Type} (d : dict V) (d' : dict W) k :
  dict_keys d = dict_keys d' -> dict_has d' k = dict_has d k.
Proof.
  intros H. destruct (dict_has d k) eqn:E.
  - apply dict_has_true. rewrite <- H. now apply dict_has_true.
  - destruct (dict_has d' k) eqn:E'; [|reflexivity].
    apply dict_has_true in E'. rewrite <- H in E'. apply dict_has_true in E'.
    congruence.
Qed.

(** An edge is listed by [edges] exactly when the adjacency holds it. *)
Lemma edges_lookup g u v d :
  NoDup (dict_keys (g_succ g)) ->
  (forall u nbrs, dict_get (g_succ g) u = Some nbrs -> NoDup (dict_keys nbrs)) ->
  (In (u, v, d) (edges g) <-> edge_lookup g u v = Some d).
Proof.
  intros Hnd Hnbrs. unfold edges, edge_lookup. rewrite in_flat_map. split.
  - intros ((u' & nbrs) & Hin & Hmap). simpl in Hmap.
    apply in_map_iff in Hmap as ((v' & d') & [= <- <- <-] & Hin').
    assert (Hg := dict_in_get _ _ _ Hnd Hin). rewrite Hg.
    apply dict_in_get; [now apply (Hnbrs u') | exact Hin'].
  - destruct (dict_get (g_succ g) u) as [nbrs|] eqn:E; [|discriminate].
    intros Hv. exists (u, nbrs). split; [now apply dict_get_some_in|].
    simpl. apply in_map_iff. exists (v, d). split; [reflexivity|].
    now apply dict_get_some_in.
Qed.

(** The node loop. *)

Record nodes_only (g : DiGraph) : Prop := mk_nodes_only {
  no_keys : dict_keys (g_node g) = dict_keys (g_succ g);
  no_nodup : NoDup (dict_keys (g_succ g));
  no_edges : forall u nbrs, dict_get (g_succ g) u = Some nbrs -> nbrs = []
}.

Lemma add_node_nodes_only g n attr :
  nodes_only g -> nodes_only (add_node g n attr).
Proof.
  intros [Hk Hnd He]. unfold add_node.
  destruct (dict_get (g_node g) n) as [old|] eqn:E; constructor; simpl.
  - now rewrite (dict_keys_set_present _ _ _ _ E).
  - exact Hnd.
  - exact He.
  - assert (E' : dict_get (g_succ g) n = None).
    { apply dict_get_none_not_in. rewrite <- Hk. now apply dict_get_none_not_in. }
    rewrite (dict_keys_set_fresh _ _ _ E), (dict_keys_set_fresh _ _ _ E').
    now rewrite Hk.
  - now apply dict_set_nodup.
  - intros u nbrs. destruct (string_dec u n) as [-> | Hne].
    + rewrite dict_get_set_same. now intros [= <-].
    + rewrite dict_get_set_other by exact Hne. apply He.
Qed.

Lemma add_entity_nodes_only json_dumps entities : forall g g',
  nodes_only g ->
  fold_left (add_entity_node json_dumps) entities (Some g) = Some g' ->
  nodes_only g'.
Proof.
  induction entities as [|e es IH]; simpl; intros g g' Hg H.
  - now inversion H; subst.
  - destruct (e_id e) as [i|].
    + eapply IH; [|exact H]. now apply add_node_nodes_only.
    + assert (Hnone : forall l, fold_left (add_entity_node json_dumps) l None = None)
        by (induction l; simpl; auto).
      rewrite Hnone in H. discriminate.
Qed.

Lemma add_entity_nodes_total json_dumps entities : forall g,
  (exists g', fold_left (add_entity_node json_dumps) entities (Some g) = Some g')
  <-> Forall (fun e => e_id e <> None) entities.
Proof.
  assert (Hnone : forall l, fold_left (add_entity_node json_dumps) l None = None)
    by (induction l; simpl; auto).
  induction entities as [|e es IH]; simpl; intros g.
  - split; [constructor | intros _; now exists g].
  - destruct (e_id e) as [i|] eqn:E.
    + rewrite IH. split.
      * intros H. constructor; [congruence | exact H].
      * intros H. now inversion H.
    + rewrite Hnone. split.
      * intros (g' & H). discriminate.
      * intros H. inversion H; subst. congruence.
Qed.

Lemma nodes_only_graph_ok g : nodes_only g -> graph_ok g.
Proof.
  intros [Hk Hnd He].
  assert (Hlook : forall u v, edge_lookup g u v = None).
  { intros u v. unfold edge_lookup.
    destruct (dict_get (g_succ g) u) as [nbrs|] eqn:E; [|reflexivity].
    now rewrite (He _ _ E). }
  constructor; auto.
  - intros u nbrs H. rewrite (He _ _ H). constructor.
  - intros u v d H. rewrite Hlook in H. discriminate.
  - intros u v d H. rewrite Hlook in H. discriminate.
Qed.

(** The edge loop. *)

(** A relation yields the edge [u -> v] of a graph with node dict [nodes]. *)
Definition yields_edge (nodes : dict (dict json)) (u v : string) (r : Relation)
  : bool :=
  String.eqb (source_key r) u && String.eqb (target_key r) v
  && dict_has nodes (source_key r) && dict_has nodes (target_key r).

Definition edge_for (nodes : dict (dict json)) (u v : string)
           (data : option (dict json)) (r : Relation) : option (dict json) :=
  if yields_edge nodes u v r then Some (edge_attrs r) else data.

Lemma add_relation_edge_nodes g r : g_node (add_relation_edge g r) = g_node g.
Proof.
  unfold add_relation_edge, add_edge.
  destruct (dict_has (g_node g) (source_key r)) eqn:Hs; simpl; [|reflexivity].
  destruct (dict_has (g_node g) (target_key r)) eqn:Ht; simpl; reflexivity.
Qed.

Lemma fold_relation_edges_nodes rs : forall g,
  g_node (fold_left add_relation_edge rs g) = g_node g.
Proof.
  induction rs as [|r rs IH]; simpl; intros g; [reflexivity|].
  now rewrite IH, add_relation_edge_nodes.
Qed.

Lemma edge_attrs_update old r :
  old = [] \/ (exists r0, old = edge_attrs r0) ->
  dict_update old (edge_attrs r) = edge_attrs r.
Proof. intros [-> | (r0 & ->)]; reflexivity. Qed.

Lemma add_edge_present g u v attr :
  dict_has (g_node g) u = true -> dict_has (g_node g) v = true ->
  add_edge g u v attr =
  mkDiGraph (g_node g)
            (dict_set (g_succ g) u
               (dict_set (dict_get_default (g_succ g) u []) v
                  (dict_update
                     (dict_get_default (dict_get_default (g_succ g) u []) v [])
                     attr))).
Proof.
  intros Hu Hv. unfold add_edge. rewrite Hu. cbv zeta. rewrite Hv. reflexivity.
Qed.

(** The adjacency after adding the edge of a relation whose endpoints are
    nodes. *)
Lemma add_relation_edge_succ g r :
  graph_ok g ->
  dict_has (g_node g) (source_key r) = true ->
  dict_has (g_node g) (target_key r) = true ->
  exists nbrs,
    dict_get (g_succ g) (source_key r) = Some nbrs /\
    g_succ (add_relation_edge g r) =
    dict_set (g_succ g) (source_key r)
             (dict_set nbrs (target_key r) (edge_attrs r)).
Proof.
  intros Hok Hs Ht.
  assert (Hs' : dict_has (g_succ g) (source_key r) = true).
  { rewrite (dict_has_same_keys (g_node g) (g_succ g)); [exact Hs | apply Hok]. }
  destruct (dict_has_get _ _ Hs') as (nbrs & Hn).
  exists nbrs. split; [exact Hn|].
  unfold add_relation_edge. cbv zeta. rewrite Hs, Ht.
  cbn [negb orb]. rewrite (add_edge_present g _ _ _ Hs Ht).
  cbn [g_succ]. unfold dict_get_default at 1 3. rewrite Hn. f_equal. f_equal.
  apply edge_attrs_update. unfold dict_get_default.
  destruct (dict_get nbrs (target_key r)) as [old|] eqn:E; [right | now left].
  apply (ok_data g Hok (source_key r) (target_key r)).
  unfold edge_lookup. now rewrite Hn.
Qed.

Lemma add_relation_edge_lookup g r u v :
  graph_ok g ->
  edge_lookup (add_relation_edge g r) u v =
  edge_for (g_node g) u v (edge_lookup g u v) r.
Proof.
  intros Hok. unfold edge_for, yields_edge.
  destruct (dict_has (g_node g) (source_key r)) eqn:Hs;
    [destruct (dict_has (g_node g) (target_key r)) eqn:Ht|].
  - destruct (add_relation_edge_succ g r Hok Hs Ht) as (nbrs & Hn & Hsucc).
    unfold edge_lookup. rewrite Hsucc. rewrite !andb_true_r.
    destruct (String.eqb (source_key r) u) eqn:Eu; simpl.
    + apply String.eqb_eq in Eu; subst u. rewrite dict_get_set_same, Hn.
      destruct (String.eqb (target_key r) v) eqn:Ev.
      * apply String.eqb_eq in Ev; subst v. apply dict_get_set_same.
      * apply String.eqb_neq in Ev. apply dict_get_set_other. congruence.
    + apply String.eqb_neq in Eu. rewrite dict_get_set_other by congruence.
      reflexivity.
  - rewrite andb_false_r. unfold add_relation_edge. rewrite Hs, Ht. reflexivity.
  - rewrite andb_false_r. simpl. unfold add_relation_edge. rewrite Hs. reflexivity.
Qed.

Lemma add_relation_edge_ok g r : graph_ok g -> graph_ok (add_relation_edge g r).
Proof.
  intros Hok.
  assert (Hlook := fun u v => add_relation_edge_lookup g r u v Hok).
  destruct (dict_has (g_node g) (source_key r)) eqn:Hs;
    [destruct (dict_has (g_node g) (target_key r)) eqn:Ht|];
    try (unfold add_relation_edge; rewrite Hs, ?Ht; exact Hok).
  destruct (add_relation_edge_succ g r Hok Hs Ht) as (nbrs & Hn & Hsucc).
  constructor.
  - rewrite add_relation_edge_nodes, Hsucc.
    rewrite (dict_keys_set_present _ _ _ _ Hn). apply Hok.
  - rewrite Hsucc, (dict_keys_set_present _ _ _ _ Hn). apply Hok.
  - intros u nb. rewrite Hsucc.
    destruct (string_dec u (source_key r)) as [-> | Hne].
    + rewrite dict_get_set_same. intros [= <-].
      apply dict_set_nodup. now apply (ok_nbrs g Hok (source_key r)).
    + rewrite dict_get_set_other by exact Hne. apply Hok.
  - intros u v d. rewrite Hlook, add_relation_edge_nodes. unfold edge_for.
    destruct (yields_edge (g_node g) u v r) eqn:Y.
    + intros _. unfold yields_edge in Y.
      repeat (apply andb_true_iff in Y as (Y & ?)).
      apply String.eqb_eq in Y. subst u.
      match goal with H : String.eqb _ v = true |- _ => apply String.eqb_eq in H; subst v end.
      auto.
    + apply Hok.
  - intros u v d. rewrite Hlook. unfold edge_for.
    destruct (yields_edge (g_node g) u v r).
    + intros [= <-]. now exists r.
    + apply Hok.
Qed.

Lemma fold_relation_edges_ok rs : forall g,
  graph_ok g -> graph_ok (fold_left add_relation_edge rs g).
Proof.
  induction rs as [|r rs IH]; simpl; intros g Hok; [exact Hok|].
  apply IH. now apply add_relation_edge_ok.
Qed.

Lemma fold_relation_edges_lookup rs : forall g u v,
  graph_ok g ->
  edge_lookup (fold_left add_relation_edge rs g) u v =
  fold_left (edge_for (g_node g) u v) rs (edge_lookup g u v).
Proof.
  induction rs as [|r rs IH]; simpl; intros g u v Hok; [reflexivity|].
  rewrite IH by now apply add_relation_edge_ok.
  now rewrite add_relation_edge_nodes, add_relation_edge_lookup.
Qed.

(** What [build_graph] returns. *)
Lemma build_graph_inv json_dumps entities relations g :
  build_graph json_dumps entities relations = Some g ->
  exists g0,
    fold_left (add_entity_node json_dumps) entities (Some empty_graph) = Some g0 /\
    nodes_only g0 /\ g = fold_left add_relation_edge relations g0 /\
    g_node g = g_node g0 /\ graph_ok g.
Proof.
  unfold build_graph.
  destruct (fold_left (add_entity_node json_dumps) entities (Some empty_graph))
    as [g0|] eqn:E; [|discriminate].
  intros [= <-]. exists g0.
  assert (H0 : nodes_only g0).
  { eapply add_entity_nodes_only; [|exact E].
    constructor; simpl; [reflexivity | constructor | discriminate]. }
  split; [reflexivity|]. split; [exact H0|]. split; [reflexivity|].
  split; [apply fold_relation_edges_nodes|].
  now apply fold_relation_edges_ok, nodes_only_graph_ok.
Qed.

Definition endpoints (e : edge) : string * string :=
  (edge_source e, edge_target e).

Lemma edges_endpoints_nodup (succ : dict (dict (dict json))) :
  NoDup (dict_keys succ) ->
  (forall u nbrs, In (u, nbrs) succ -> NoDup (dict_keys nbrs)) ->
  NoDup (map endpoints
             (flat_map (fun un => map (fun vd => (fst un, fst vd, snd vd)) (snd un))
                       succ)).
Proof.
  induction succ as [|[u nbrs] succ IH]; simpl; intros Hnd Hnbrs; [constructor|].
  inversion Hnd as [|? ? Hni Hnd']; subst.
  rewrite map_app. apply NoDup_app.
  - rewrite map_map. unfold endpoints, edge_source, edge_target. simpl.
    rewrite <- (map_map fst (fun v => (u, v))).
    apply NoDup_map_NoDup_ForallPairs; [intros a b _ _ [= ->]; reflexivity|].
    apply (Hnbrs u nbrs). now left.
  - apply IH; [exact Hnd'|]. intros u' nbrs' Hin. apply (Hnbrs u' nbrs'). now right.
  - intros [a b] Ha Hb. apply Hni.
    apply in_map_iff in Ha as (e1 & He1 & Hin1).
    apply in_map_iff in Hin1 as ((v1 & d1) & <- & _).
    unfold endpoints, edge_source in He1. simpl in He1. inversion He1; subst.
    apply in_map_iff in Hb as (e2 & He2 & Hin2).
    apply in_flat_map in Hin2 as ((u2 & nb2) & Hin2 & Hm).
    apply in_map_iff in Hm as ((v2 & d2) & <- & _).
    unfold endpoints, edge_source in He2. simpl in He2. inversion He2; subst.
    change a with (fst (a, nb2)). now apply in_map.
Qed.

(** The data kept for a pair of endpoints by the edge loop: that of the last
    relation yielding the pair, or what was there before. *)
Lemma edge_for_fold nodes u v rs : forall init d,
  fold_left (edge_for nodes u v) rs init = Some d <->
  (exists pre r post,
     rs = (pre ++ r :: post)%list /\ yields_edge nodes u v r = true /\
     d = edge_attrs r /\
     forall x, In x post -> yields_edge nodes u v x = false)
  \/ (init = Some d /\ forall x, In x rs -> yields_edge nodes u v x = false).
Proof.
  induction rs as [|r rs IH]; simpl; intros init d.
  - split.
    + intros H. right. split; [exact H | tauto].
    + intros [(pre & r & post & H & _) | (H & _)]; [|exact H].
      now destruct pre.
  - rewrite IH. unfold edge_for. split.
    + intros [(pre & r' & post & -> & Hy & Hd & Hpost) | (Hinit & Hnone)].
      * left. exists (r :: pre), r', post. auto.
      * destruct (yields_edge nodes u v r) eqn:Y.
        -- left. exists [], r, rs. simpl. inversion Hinit; subst. auto.
        -- right. split; [exact Hinit|]. intros x [<- | Hx]; auto.
    + intros [(pre & r' & post & Heq & Hy & Hd & Hpost) | (Hinit & Hnone)].
      * destruct pre as [|p pre]; simpl in Heq; inversion Heq; subst.
        -- right. rewrite Hy. auto.
        -- left. exists pre, r', post. auto.
      * right. rewrite (Hnone r) by now left. split; [exact Hinit|].
        intros x Hx. apply Hnone. now right.
Qed.

Lemma yields_edge_true nodes u v r :
  yields_edge nodes u v r = true <->
  source_key r = u /\ target_key r = v /\
  dict_has nodes u = true /\ dict_has nodes v = true.
Proof.
  unfold yields_edge. rewrite !andb_true_iff, !String.eqb_eq. split.
  - intros (((<- & <-) & Hs) & Ht). auto.
  - intros (<- & <- & Hs & Ht). auto.
Qed.

(** C4. In every assembled graph both endpoints of every edge are nodes of
    the graph, and the nodes are those made from the entities: no relation
    adds one.  A relation whose source or target key is not among the nodes
    made from the entities is skipped: the graph is the one built without
    it.  Assembly fails only on an entity that carries no id, whatever the
    relations are. *)
Theorem C4_no_dangling_edges :
  forall json_dumps entities relations,
    ((exists g, build_graph json_dumps entities relations = Some g) <->
     Forall (fun e => e_id e <> None) entities) /\
    forall g,
      build_graph json_dumps entities relations = Some g ->
      exists g0,
        build_graph json_dumps entities [] = Some g0 /\
        g_node g = g_node g0 /\
        (forall e, In e (edges g) ->
                   dict_has (g_node g0) (edge_source e) = true /\
                   dict_has (g_node g0) (edge_target e) = true) /\
        (forall pre r post,
           relations = (pre ++ r :: post)%list ->
           dict_has (g_node g0) (source_key r) = false \/
           dict_has (g_node g0) (target_key r) = false ->
           build_graph json_dumps entities (pre ++ post) = Some g).
Proof.
  intros json_dumps entities relations. split.
  - rewrite <- (add_entity_nodes_total json_dumps entities empty_graph).
    unfold build_graph.
    destruct (fold_left (add_entity_node json_dumps) entities (Some empty_graph))
      as [g0|].
    + split; intros _; eauto.
    + split; intros (g & H); discriminate.
  - intros g Hg.
    destruct (build_graph_inv _ _ _ _ Hg) as (g0 & Hg0 & Hno & Heq & Hnodes & Hok).
    exists g0. split; [unfold build_graph; now rewrite Hg0|].
    split; [exact Hnodes|]. split.
    + intros [[u v] d] Hin. unfold edge_source, edge_target. simpl.
      rewrite <- Hnodes. apply (ok_ends g Hok u v d).
      apply edges_lookup; [apply Hok | apply Hok | exact Hin].
    + intros pre r post -> Hdangling.
      unfold build_graph. rewrite Hg0. f_equal.
      rewrite Heq, !fold_left_app. simpl. f_equal.
      unfold add_relation_edge.
      rewrite fold_relation_edges_nodes.
      destruct Hdangling as [-> | ->]; simpl; [reflexivity|].
      now rewrite orb_true_r.
Qed.

(** A small pipeline state: two canonical entities, and relations between
    them.  [json.dumps] is only applied to the empty dict here. *)
Definition sample_dumps (v : json) : string := "{}".

Definition sample_entities : list Entity :=
  [ mkEntity "药物" "胰岛素" (Some 0%Z) "糖尿病.txt" None None;
    mkEntity "疾病" "糖尿病" (Some 1%Z) "糖尿病.txt" None None ].

Definition treats : Relation :=
  mkRelation 0 "药物" "胰岛素" 1 "疾病" "糖尿病" "治疗" None (Some 0.9%float).

Definition prevents : Relation :=
  mkRelation 0 "药物" "胰岛素" 1 "疾病" "糖尿病" "预防" None (Some 0.7%float).

Definition dangling : Relation :=
  mkRelation 0 "药物" "胰岛素" 7 "症状" "多饮" "副作用" None (Some 0.9%float).

Lemma C4_no_dangling_edges_witness :
  exists g g0,
    build_graph sample_dumps sample_entities [treats; dangling] = Some g /\
    build_graph sample_dumps sample_entities [] = Some g0 /\
    g_node g = g_node g0 /\
    (forall e, In e (edges g) ->
               dict_has (g_node g0) (edge_source e) = true /\
               dict_has (g_node g0) (edge_target e) = true) /\
    (forall pre r post,
       [treats; dangling] = (pre ++ r :: post)%list ->
       dict_has (g_node g0) (source_key r) = false \/
       dict_has (g_node g0) (target_key r) = false ->
       build_graph sample_dumps sample_entities (pre ++ post) = Some g).
Proof.
  eexists.
  destruct (proj2 (C4_no_dangling_edges sample_dumps sample_entities
                                        [treats; dangling])
                  _ eq_refl) as (g0 & H).
  exists g0. split; [reflexivity | exact H].
Defined.

(** On the sample the dangling relation leaves no trace. *)
Example build_graph_sample :
  build_graph sample_dumps sample_entities [treats; dangling] =
  build_graph sample_dumps sample_entities [treats].
Proof. vm_compute. reflexivity. Qed.

(** C5 as stated fails: two canonical relations between the same two nodes
    that differ in relation type end up in a single edge, which carries the
    attributes of the later one. *)
Lemma C5_two_relation_types_one_edge :
  _deduplicate_relations [treats; prevents] = [treats; prevents] /\
  exists g,
    build_graph sample_dumps sample_entities [treats; prevents] = Some g /\
    dict_has (g_node g) (source_key treats) = true /\
    dict_has (g_node g) (target_key treats) = true /\
    source_key prevents = source_key treats /\
    target_key prevents = target_key treats /\
    edges g = [("药物_0", "疾病_1", edge_attrs prevents)] /\
    ~ (exists e1 e2,
         In e1 (edges g) /\ In e2 (edges g) /\
         dict_get (edge_data e1) "type" = Some (JStr "治疗") /\
         dict_get (edge_data e2) "type" = Some (JStr "预防")).
Proof.
  split; [vm_compute; reflexivity|].
  eexists. split; [vm_compute; reflexivity|].
  repeat (split; [vm_compute; reflexivity|]).
  intros (e1 & e2 & [<- | []] & _ & H1 & _). vm_compute in H1. discriminate.
Qed.

(** C5, amended. The assembled graph holds at most one edge per ordered pair
    of node keys.  The pair [(u, v)] has an edge exactly when some relation
    has source key [u] and target key [v], both being nodes; the edge then
    carries the type, confidence and description of the last such relation
    in input order. *)
Theorem C5_one_edge_per_endpoint_pair :
  forall json_dumps entities relations g,
    build_graph json_dumps entities relations = Some g ->
    NoDup (map endpoints (edges g)) /\
    forall u v d,
      In (u, v, d) (edges g) <->
      exists pre r post,
        relations = (pre ++ r :: post)%list /\
        source_key r = u /\ target_key r = v /\
        dict_has (g_node g) u = true /\ dict_has (g_node g) v = true /\
        d = edge_attrs r /\
        forall x, In x post -> ~ (source_key x = u /\ target_key x = v).
Proof.
  intros json_dumps entities relations g Hg.
  destruct (build_graph_inv _ _ _ _ Hg) as (g0 & Hg0 & Hno & Heq & Hnodes & Hok).
  split.
  - apply edges_endpoints_nodup; [apply Hok|].
    intros u nbrs Hin. apply (ok_nbrs g Hok u).
    apply dict_in_get; [apply Hok | exact Hin].
  - intros u v d.
    rewrite (edges_lookup g u v d (ok_nodup g Hok) (ok_nbrs g Hok)).
    assert (H0 : edge_lookup g0 u v = None).
    { unfold edge_lookup.
      destruct (dict_get (g_succ g0) u) as [nbrs|] eqn:E; [|reflexivity].
      now rewrite (no_edges g0 Hno _ _ E). }
    assert (Hl : edge_lookup g u v =
                 fold_left (edge_for (g_node g) u v) relations None).
    { rewrite Hnodes, <- H0, Heq. apply fold_relation_edges_lookup.
      now apply nodes_only_graph_ok. }
    rewrite Hl, edge_for_fold. split.
    + intros [(pre & r & post & -> & Hy & -> & Hpost) | (H & _)]; [|discriminate].
      apply yields_edge_true in Hy as (Hs & Ht & Hu & Hv).
      exists pre, r, post.
      split; [reflexivity|]. split; [exact Hs|]. split; [exact Ht|].
      split; [exact Hu|]. split; [exact Hv|]. split; [reflexivity|].
      intros x Hx (Hxs & Hxt).
      assert (Y : yields_edge (g_node g) u v x = true)
        by (apply yields_edge_true; auto).
      rewrite (Hpost x Hx) in Y. discriminate.
    + intros (pre & r & post & -> & Hs & Ht & Hu & Hv & -> & Hpost).
      left. exists pre, r, post. split; [reflexivity|].
      split; [apply yields_edge_true; auto|]. split; [reflexivity|].
      intros x Hx. destruct (yields_edge (g_node g) u v x) eqn:Y; [|reflexivity].
      apply yields_edge_true in Y as (Hxs & Hxt & _). exfalso.
      apply (Hpost x Hx). auto.
Qed.

Lemma C5_one_edge_per_endpoint_pair_witness :
  exists g,
    build_graph sample_dumps sample_entities [treats; prevents] = Some g /\
    NoDup (map endpoints (edges g)) /\
    forall u v d,
      In (u, v, d) (edges g) <->
      exists pre r post,
        [treats; prevents] = (pre ++ r :: post)%list /\
        source_key r = u /\ target_key r = v /\
        dict_has (g_node g) u = true /\ dict_has (g_node g) v = true /\
        d = edge_attrs r /\
        forall x, In x post -> ~ (source_key x = u /\ target_key x = v).
Proof.
  eexists. split; [reflexivity|].
  apply (C5_one_edge_per_endpoint_pair sample_dumps sample_entities
                                       [treats; prevents]).
  reflexivity.
Defined.

(** ** Relation extraction for a pair *)

Section ExtractFacts.
Variable float_of_str : string -> option float.


(** A dict with a type and no confidence is given confidence 1.0 and kept. *)
Lemma filter_relation_default d :
  dict_has d "type" = true -> dict_has d "confidence" = false ->
  filter_relation float_of_str (JDict d) =
  Some (Some (JDict (dict_set d "confidence" (JNum 1.0%float)))).
Proof.
  intros Ht Hc. unfold filter_relation. simpl. rewrite Ht, Hc. simpl.
  rewrite dict_get_set_same. reflexivity.
Qed.

Lemma filter_relations_acc relations : forall acc out,
  filter_relations float_of_str relations acc = Some out ->
  (forall r, In r out <->
             In r acc \/
             exists relation, In relation relations /\
                              filter_relation float_of_str relation = Some (Some r)).
Proof.
  induction relations as [|x xs IH]; simpl; intros acc out H r.
  - inversion H; subst. split; [auto | intros [Hr | (? & [] & _)]; exact Hr].
  - destruct (filter_relation float_of_str x) as [[kept|]|] eqn:E; try discriminate.
    + rewrite (IH _ _ H r). rewrite in_app_iff. simpl. split.
      * intros [[Hr | [<- | []]] | (y & Hy & Hf)]; eauto.
      * intros [Hr | (y & [<- | Hy] & Hf)]; eauto.
        rewrite E in Hf. inversion Hf; subst. auto.
    + rewrite (IH _ _ H r). split.
      * intros [Hr | (y & Hy & Hf)]; eauto.
      * intros [Hr | (y & [<- | Hy] & Hf)]; eauto.
        rewrite E in Hf. discriminate.
Qed.

Lemma handle_response_kept response out :
  handle_response float_of_str response = Some out ->
  forall r, In r out ->
            exists relation, filter_relation float_of_str relation = Some (Some r).
Proof.
  unfold handle_response.
  destruct (negb (truthy response)); [intros [= <-] r Hr; inversion Hr|].
  destruct (match response with
            | JList _ => Some response
            | JDict d => dict_get d "relations"
            | _ => None
            end) as [rs|]; [|intros [= <-] r Hr; inversion Hr].
  destruct (iterate rs) as [items|]; [|discriminate].
  intros H r Hr. apply (filter_relations_acc items [] out H r) in Hr.
  destruct Hr as [[] | (relation & _ & Hf)]. now exists relation.
Qed.


End ExtractFacts.





Section ExtractAnswer.
Variable float_of_str : string -> option float.








End ExtractAnswer.

(** A generation service that answers every prompt with two relations, one
    without confidence and one below the threshold. *)
Definition sample_service (prompt : string) : option json :=
  Some (JList [ JDict [("type", JStr "治疗")];
                JDict [("type", JStr "预防"); ("confidence", JNum 0.5%float)] ]).



(** No confidence is written as a string in the samples. *)
Definition no_float (s : string) : option float := None.




(** On the sample the relation without confidence is the only survivor, and
    one prompt was sent. *)
Example extract_medical_relations_sample :
  exists prompt,
    extract_medical_relations no_float sample_service
                              (sample_mention "药物" "阿司匹林" None)
                              (sample_mention "疾病" "糖尿病" None) =
    ([JDict [("type", JStr "治疗"); ("confidence", JNum 1.0%float)]], [prompt]).
Proof. eexists. vm_compute. reflexivity. Qed.

(** C9. For the source entity named 胰岛素 of type 药物 and the target
    entity named 糖尿病 of type 疾病, the extractor returns the single
    relation of type 治疗 with confidence 1.0 that the shortcut table holds,
    and sends no prompt to the generation service. *)
Theorem C9_shortcut_insulin_diabetes :
  forall float_of_str generate_json source target,
    e_name source = "胰岛素" -> e_type source = "药物" ->
    e_name target = "糖尿病" -> e_type target = "疾病" ->
    extract_medical_relations float_of_str generate_json source target =
    ([ JDict [ ("type", JStr "治疗");
               ("description", JStr "胰岛素用于治疗糖尿病");
               ("confidence", JNum 1.0%float) ] ],
     []).
Proof.
  intros float_of_str generate_json [sty sname sid sdoc sdesc sattr]
         [tty tname tid tdoc tdesc tattr]; simpl.
  intros -> -> -> ->. reflexivity.
Qed.

Lemma C9_shortcut_witness :
  extract_medical_relations no_float sample_service
                            (sample_mention "药物" "胰岛素" None)
                            (sample_mention "疾病" "糖尿病" None) =
  ([ JDict [ ("type", JStr "治疗");
             ("description", JStr "胰岛素用于治疗糖尿病");
             ("confidence", JNum 1.0%float) ] ],
   []).
Proof.
  apply (C9_shortcut_insulin_diabetes
           no_float sample_service
           (sample_mention "药物" "胰岛素" None)
           (sample_mention "疾病" "糖尿病" None));
    reflexivity.
Defined.

(** ** Retrieval for a question *)

Section RetrievalFacts.
Variable lower : string -> string.

(** A node passes the test of the scan for a question entity. *)
Definition matches (question_entity : QuestionEntity)
           (node : string * dict json) : bool :=
  match node_matches lower (question_name question_entity)
                     (question_type question_entity) (snd node) with
  | Some b => b
  | None => false
  end.

Lemma str_eq_json_true s v : str_eq_json s v = true <-> v = JStr s.
Proof.
  destruct v; simpl; try (split; [discriminate | intros [=]]).
  rewrite String.eqb_eq. split; [now intros -> | now intros [= ->]].
Qed.

Lemma matches_true question_entity node data :
  matches question_entity (node, data) = true <->
  exists node_name,
    dict_get_default data "name" (JStr "") = JStr node_name /\
    str_in (lower (question_name question_entity)) (lower node_name) = true /\
    (question_type question_entity = "" \/
     dict_get_default data "type" (JStr "") = JStr (question_type question_entity)).
Proof.
  unfold matches, node_matches. simpl.
  destruct (dict_get_default data "name" (JStr "")) as [| | |node_name| |];
    try (split; [discriminate | intros (n & [=] & _)]).
  rewrite andb_true_iff, orb_true_iff, String.eqb_eq, str_eq_json_true. split.
  - intros (H1 & H2). now exists node_name.
  - intros (n & [= <-] & H1 & H2). auto.
Qed.

Lemma matched_nodes_filter entity_name entity_type nodes : forall ms,
  matched_nodes lower entity_name entity_type nodes = Some ms ->
  ms = filter (fun nd => match node_matches lower entity_name entity_type (snd nd) with
                         | Some b => b
                         | None => false
                         end) nodes.
Proof.
  induction nodes as [|[node data] nodes IH]; simpl; intros ms H.
  - now inversion H.
  - destruct (node_matches lower entity_name entity_type data) as [b|]; [|discriminate].
    destruct (matched_nodes lower entity_name entity_type nodes) as [ms'|];
      [|discriminate].
    inversion H; subst. rewrite (IH ms' eq_refl). now destruct b.
Qed.

Lemma matched_nodes_total entity_name entity_type nodes :
  (forall node data, In (node, data) nodes ->
     exists s, dict_get_default data "name" (JStr "") = JStr s) ->
  exists ms, matched_nodes lower entity_name entity_type nodes = Some ms.
Proof.
  induction nodes as [|[node data] nodes IH]; simpl; intros Hn.
  - now exists [].
  - destruct (Hn node data) as (s & Hs); [now left|].
    unfold node_matches at 1. rewrite Hs.
    destruct IH as (ms & ->); [intros n d Hin; apply (Hn n d); now right|].
    eauto.
Qed.

Definition entity_of (nd : string * dict json) : dict json :=
  retrieved_entity (fst nd) (snd nd).

Lemma collect_entities g question_relations matched : forall es rs,
  collect g question_relations matched = Some (es, rs) ->
  es = map entity_of matched.
Proof.
  induction matched as [|[node data] matched IH]; simpl; intros es rs H.
  - now inversion H.
  - destruct (relations_of_edges g question_relations (visited_edges g node))
      as [rs1|]; [|discriminate].
    destruct (collect g question_relations matched) as [[es' rs']|]; [|discriminate].
    inversion H; subst. now rewrite (IH es' rs' eq_refl).
Qed.

Lemma retrieve_entities g question_relations question_entities : forall es rs,
  retrieve lower g question_entities question_relations = Some (es, rs) ->
  es = flat_map (fun qe => map entity_of (filter (matches qe) (g_node g)))
                question_entities.
Proof.
  induction question_entities as [|qe qes IH]; simpl; intros es rs H.
  - now inversion H.
  - destruct (matched_nodes lower (question_name qe) (question_type qe) (g_node g))
      as [ms|] eqn:Hm; [|discriminate].
    destruct (collect g question_relations ms) as [[es1 rs1]|] eqn:Hc; [|discriminate].
    destruct (retrieve lower g qes question_relations) as [[es2 rs2]|]; [|discriminate].
    inversion H; subst.
    rewrite (IH es2 rs2 eq_refl), (collect_entities _ _ _ _ _ Hc).
    now rewrite (matched_nodes_filter _ _ _ _ Hm).
Qed.

Lemma retrieve_kg_information_entities g question_entities question_relations es rs :
  _retrieve_kg_information lower (Some g) question_entities question_relations
  = Some (es, rs) ->
  es = flat_map (fun qe => map entity_of (filter (matches qe) (g_node g)))
                question_entities.
Proof.
  unfold _retrieve_kg_information.
  destruct (g_node g) as [|n ns] eqn:E.
  - intros [= <- <-]. induction question_entities; simpl; auto.
  - rewrite <- E. apply retrieve_entities.
Qed.

End RetrievalFacts.

Section RetrievalRelations.
Variable lower : string -> string.

(** The relations retrieved from a list of visited edges: one per edge that
    passes the hint test, in order. *)
Lemma relations_of_edges_kept g question_relations es : forall rs,
  relations_of_edges g question_relations es = Some rs ->
  Forall2 (fun e r => retrieved_relation g e = Some r)
          (filter (fun e => edge_kept question_relations (edge_data e)) es) rs.
Proof.
  induction es as [|e es IH]; simpl; intros rs H.
  - inversion H. constructor.
  - destruct (relations_of_edges g question_relations es) as [rs'|]; [|discriminate].
    destruct (edge_kept question_relations (edge_data e)).
    + destruct (retrieved_relation g e) as [r|] eqn:E; [|discriminate].
      inversion H; subst. constructor; auto.
    + inversion H; subst. auto.
Qed.

(** An edge passes the hint test exactly when there is no hint or its type is
    one of the hints. *)
Lemma edge_kept_true question_relations data :
  edge_kept question_relations data = true <->
  question_relations = [] \/
  exists h, In h question_relations /\
            dict_get_default data "type" (JStr "") = JStr h.
Proof.
  unfold edge_kept. destruct question_relations as [|h hs].
  - split; auto.
  - rewrite existsb_exists. split.
    + intros (x & Hx & Hs). right. exists x. split; [exact Hx|].
      now apply str_eq_json_true.
    + intros [H | (x & Hx & Hs)]; [discriminate|].
      exists x. split; [exact Hx | now apply str_eq_json_true].
Qed.

(** The relations retrieved for the matched nodes come from their outgoing
    edges, node by node. *)
Lemma collect_relations g question_relations matched : forall es rs,
  collect g question_relations matched = Some (es, rs) ->
  Forall2 (fun e r => retrieved_relation g e = Some r)
          (flat_map (fun nd =>
                       filter (fun e => edge_kept question_relations (edge_data e))
                              (out_edges g (fst nd)))
                    matched)
          rs.
Proof.
  induction matched as [|[node data] matched IH]; simpl; intros es rs H.
  - inversion H. constructor.
  - unfold visited_edges in H.
    destruct (relations_of_edges g question_relations (out_edges g node))
      as [rs1|] eqn:E; [|discriminate].
    destruct (collect g question_relations matched) as [[es' rs']|]; [|discriminate].
    inversion H; subst. apply Forall2_app.
    + now apply relations_of_edges_kept.
    + now apply (IH es').
Qed.

(** Graphs as networkx keeps them: the endpoints of every edge are nodes. *)
Definition edges_closed (g : DiGraph) : Prop :=
  forall e, In e (edges g) ->
            dict_has (g_node g) (edge_source e) = true /\
            dict_has (g_node g) (edge_target e) = true.

(** Graphs whose node names are strings, as [build_graph] writes them. *)
Definition names_are_strings (g : DiGraph) : Prop :=
  forall node data, In (node, data) (g_node g) ->
                    exists s, dict_get_default data "name" (JStr "") = JStr s.

Lemma out_edges_in_edges g n e : In e (out_edges g n) -> In e (edges g).
Proof.
  unfold out_edges, edges.
  destruct (dict_get (g_succ g) n) as [nbrs|] eqn:E; [|intros []].
  intros H. apply in_flat_map. exists (n, nbrs).
  split; [now apply dict_get_some_in | exact H].
Qed.

Lemma relations_of_edges_total g question_relations es :
  (forall e, In e es -> dict_has (g_node g) (edge_source e) = true /\
                        dict_has (g_node g) (edge_target e) = true) ->
  exists rs, relations_of_edges g question_relations es = Some rs.
Proof.
  induction es as [|e es IH]; simpl; intros Hc; [now exists []|].
  destruct IH as (rs & ->); [intros x Hx; apply Hc; now right|].
  destruct (edge_kept question_relations (edge_data e)); [|eauto].
  destruct (Hc e (or_introl eq_refl)) as (Hs & Ht).
  unfold retrieved_relation, name_of.
  destruct (dict_has_get _ _ Hs) as (ds & ->).
  destruct (dict_has_get _ _ Ht) as (dt & ->). eauto.
Qed.

Lemma collect_total g question_relations matched :
  edges_closed g ->
  exists es rs, collect g question_relations matched = Some (es, rs).
Proof.
  intros Hc. induction matched as [|[node data] matched IH]; simpl.
  - now exists [], [].
  - destruct IH as (es & rs & ->).
    destruct (relations_of_edges_total g question_relations (visited_edges g node))
      as (rs1 & ->); [|eauto].
    intros e He. apply Hc. now apply out_edges_in_edges with node.
Qed.

Lemma retrieve_total g question_entities question_relations :
  edges_closed g -> names_are_strings g ->
  exists es rs,
    retrieve lower g question_entities question_relations = Some (es, rs).
Proof.
  intros Hc Hn. induction question_entities as [|qe qes IH]; simpl.
  - now exists [], [].
  - destruct (matched_nodes_total lower (question_name qe) (question_type qe)
                                  (g_node g) Hn) as (ms & ->).
    destruct (collect_total g question_relations ms Hc) as (es1 & rs1 & ->).
    destruct IH as (es2 & rs2 & ->). eauto.
Qed.

Lemma retrieve_kg_information_total g question_entities question_relations :
  edges_closed g -> names_are_strings g ->
  exists es rs,
    _retrieve_kg_information lower (Some g) question_entities question_relations
    = Some (es, rs).
Proof.
  intros Hc Hn. unfold _retrieve_kg_information.
  destruct (g_node g) eqn:E; [now exists [], []|].
  now apply retrieve_total.
Qed.

End RetrievalRelations.

Lemma str_in_empty s : str_in "" s = true.
Proof. destruct s; reflexivity. Qed.

(** C8. The entities retrieved for a question are, question entity by
    question entity and in graph order, the nodes that pass the test of the
    scan (and retrieval does return on a graph whose edges end in nodes and
    whose node names are strings).  A node passes the test exactly when its
    stored name contains the question-entity name, both lower-cased (node
    name contains entity name, not the reverse), and the question entity
    gives no type or gives exactly the node's type.  In particular a node
    named 2型糖尿病 matches the name 糖尿病 when no type is given, and a node
    named 糖 never matches it. *)
Theorem C8_node_matching :
  forall lower : string -> string,
    (forall g question_entities question_relations es rs,
       _retrieve_kg_information lower (Some g) question_entities
                                question_relations = Some (es, rs) ->
       es = flat_map (fun qe => map entity_of
                                    (filter (matches lower qe) (g_node g)))
                     question_entities) /\
    (forall g question_entities question_relations,
       edges_closed g -> names_are_strings g ->
       exists es rs,
         _retrieve_kg_information lower (Some g) question_entities
                                  question_relations = Some (es, rs)) /\
    (forall question_entity node data,
       matches lower question_entity (node, data) = true <->
       exists node_name,
         dict_get_default data "name" (JStr "") = JStr node_name /\
         str_in (lower (question_name question_entity)) (lower node_name) = true /\
         (question_type question_entity = "" \/
          dict_get_default data "type" (JStr "") =
          JStr (question_type question_entity))) /\
    (lower "糖尿病" = "糖尿病" -> lower "2型糖尿病" = "2型糖尿病" ->
     lower "糖" = "糖" ->
     forall node data data' type,
       dict_get data "name" = Some (JStr "2型糖尿病") ->
       dict_get data' "name" = Some (JStr "糖") ->
       matches lower (mkQuestionEntity (Some "糖尿病") None) (node, data) = true /\
       matches lower (mkQuestionEntity (Some "糖尿病") type) (node, data') = false).
Proof.
  intros lower. split; [|split; [|split]].
  - intros g qes hints es rs. apply retrieve_kg_information_entities.
  - intros g qes hints. apply retrieve_kg_information_total.
  - apply matches_true.
  - intros H1 H2 H3 node data data' type Hd Hd'.
    unfold matches, node_matches, dict_get_default, question_name, question_type.
    simpl. rewrite Hd, Hd', H1, H2, H3. split; reflexivity.
Qed.

Lemma C8_node_matching_witness :
  matches ascii_lower (mkQuestionEntity (Some "糖尿病") None)
          ("疾病_3", [("name", JStr "2型糖尿病"); ("type", JStr "疾病")]) = true /\
  matches ascii_lower (mkQuestionEntity (Some "糖尿病") (Some "疾病"))
          ("疾病_3", [("name", JStr "糖"); ("type", JStr "疾病")]) = false.
Proof.
  apply (proj2 (proj2 (proj2 (C8_node_matching ascii_lower)))); reflexivity.
Defined.

(** C10. A question entity whose name is empty or absent and whose type is
    empty or absent matches every node: on a graph whose edges end in nodes
    and whose node names are strings, retrieval returns, and returns every
    node of the graph; when it is the only question entity the retrieved
    entities are exactly the nodes, in graph order. *)
Theorem C10_empty_question_entity_matches_all :
  forall (lower : string -> string) g question_entity,
    lower "" = "" ->
    question_name question_entity = "" ->
    question_type question_entity = "" ->
    edges_closed g -> names_are_strings g ->
    forall question_relations,
      (forall question_entities,
         In question_entity question_entities ->
         exists es rs,
           _retrieve_kg_information lower (Some g) question_entities
                                    question_relations = Some (es, rs) /\
           forall node data, In (node, data) (g_node g) ->
                             In (retrieved_entity node data) es) /\
      (exists rs,
         _retrieve_kg_information lower (Some g) [question_entity]
                                  question_relations
         = Some (map entity_of (g_node g), rs)).
Proof.
  intros lower g qe Hlow Hname Htype Hc Hn hints.
  assert (Hall : forall nd, In nd (g_node g) -> matches lower qe nd = true).
  { intros [node data] Hin. apply matches_true.
    destruct (Hn node data Hin) as (s & Hs). exists s.
    rewrite Hname, Hlow, Htype. split; [exact Hs|].
    split; [apply str_in_empty | now left]. }
  assert (Hfilter : filter (matches lower qe) (g_node g) = g_node g).
  { apply forallb_filter_id. apply forallb_forall. exact Hall. }
  split.
  - intros qes Hin.
    destruct (retrieve_kg_information_total lower g qes hints Hc Hn)
      as (es & rs & H).
    exists es, rs. split; [exact H|].
    intros node data Hnd.
    rewrite (retrieve_kg_information_entities lower g qes hints es rs H).
    apply in_flat_map. exists qe. split; [exact Hin|].
    rewrite Hfilter. change (retrieved_entity node data) with (entity_of (node, data)).
    now apply in_map.
  - destruct (retrieve_kg_information_total lower g [qe] hints Hc Hn)
      as (es & rs & H).
    exists rs. rewrite H. f_equal. f_equal.
    rewrite (retrieve_kg_information_entities lower g [qe] hints es rs H).
    simpl. now rewrite Hfilter, app_nil_r.
Qed.

(** The graphs [build_graph] returns can be searched: retrieval never raises
    on them. *)
Lemma node_attrs_name json_dumps old entity_id entity :
  dict_get (dict_update old (node_attrs json_dumps entity_id entity)) "name"
  = Some (JStr (e_name entity)).
Proof.
  unfold dict_update, node_attrs. simpl.
  repeat (rewrite dict_get_set_other by discriminate).
  apply dict_get_set_same.
Qed.

Lemma add_entity_nodes_names json_dumps entities : forall g g',
  (forall node data, dict_get (g_node g) node = Some data ->
                     exists s, dict_get data "name" = Some (JStr s)) ->
  fold_left (add_entity_node json_dumps) entities (Some g) = Some g' ->
  forall node data, dict_get (g_node g') node = Some data ->
                    exists s, dict_get data "name" = Some (JStr s).
Proof.
  induction entities as [|e es IH]; simpl; intros g g' Hg H.
  - now inversion H; subst.
  - destruct (e_id e) as [i|].
    + eapply IH; [|exact H]. intros node data. unfold add_node.
      destruct (dict_get (g_node g) (node_key (e_type e) i)) as [old|];
        cbn [g_node];
        (destruct (string_dec node (node_key (e_type e) i)) as [-> | Hne];
         [rewrite dict_get_set_same; intros [= <-]; eexists;
          first [apply node_attrs_name | reflexivity]
         | rewrite dict_get_set_other by exact Hne; apply Hg]).
    + assert (Hnone : forall l, fold_left (add_entity_node json_dumps) l None = None)
        by (induction l; simpl; auto).
      rewrite Hnone in H. discriminate.
Qed.

Lemma build_graph_retrievable json_dumps entities relations g :
  build_graph json_dumps entities relations = Some g ->
  edges_closed g /\ names_are_strings g.
Proof.
  intros Hg.
  destruct (build_graph_inv _ _ _ _ Hg) as (g0 & Hg0 & Hno & Heq & Hnodes & Hok).
  split.
  - intros [[u v] d] Hin. unfold edge_source, edge_target. simpl.
    apply (ok_ends g Hok u v d).
    apply edges_lookup; [apply Hok | apply Hok | exact Hin].
  - intros node data Hin.
    assert (Hget : dict_get (g_node g0) node = Some data).
    { rewrite <- Hnodes. apply dict_in_get; [|exact Hin].
      rewrite (ok_keys g Hok). apply Hok. }
    destruct (add_entity_nodes_names json_dumps entities empty_graph g0
                (fun n d H => ltac:(discriminate H)) Hg0 node data Hget) as (s & Hs).
    exists s. unfold dict_get_default. now rewrite Hs.
Qed.

(** The graph assembled from the sample: 胰岛素 --治疗--> 糖尿病. *)
Definition sample_graph : DiGraph :=
  Eval vm_compute in
    match build_graph sample_dumps sample_entities [treats] with
    | Some g => g
    | None => empty_graph
    end.

Lemma sample_graph_built :
  build_graph sample_dumps sample_entities [treats] = Some sample_graph.
Proof. vm_compute. reflexivity. Qed.

Lemma C10_empty_question_entity_witness :
  (forall question_entities,
     In (mkQuestionEntity None (Some "")) question_entities ->
     exists es rs,
       _retrieve_kg_information ascii_lower (Some sample_graph)
                                question_entities ["治疗"] = Some (es, rs) /\
       forall node data, In (node, data) (g_node sample_graph) ->
                         In (retrieved_entity node data) es) /\
  (exists rs,
     _retrieve_kg_information ascii_lower (Some sample_graph)
                              [mkQuestionEntity None (Some "")] ["治疗"]
     = Some (map entity_of (g_node sample_graph), rs)).
Proof.
  apply (C10_empty_question_entity_matches_all
           ascii_lower sample_graph (mkQuestionEntity None (Some "")));
    try reflexivity;
    apply (build_graph_retrievable _ _ _ _ sample_graph_built).
Defined.

(** C7, at a graph with one edge 胰岛素 --治疗--> 糖尿病 and a question
    about 糖尿病 without relation hints: the node 糖尿病 is matched, the edge
    enters it, and no relation is retrieved.  The engine visits
    [G.edges([node])], which on a directed graph lists the edges leaving the
    node only. *)
Theorem C7_incoming_edges_not_collected :
  in_edges sample_graph "疾病_1" =
    [("药物_0", "疾病_1", edge_attrs treats)] /\
  out_edges sample_graph "疾病_1" = [] /\
  _retrieve_kg_information ascii_lower (Some sample_graph)
    [mkQuestionEntity (Some "糖尿病") (Some "疾病")] []
  = Some ([ [ ("id", JStr "疾病_1"); ("name", JStr "糖尿病");
              ("type", JStr "疾病"); ("source_doc", JStr "糖尿病.txt");
              ("description", JStr ""); ("attributes", JStr "{}") ] ],
          []).
Proof. repeat split; vm_compute; reflexivity. Qed.

(** What does hold of the relations retrieved: they are the outgoing edges of
    the matched nodes that pass the hint test, and an edge passes it exactly
    when there is no hint or its type is among the hints. *)
Lemma retrieved_relations_are_outgoing lower g question_entity question_relations
      es rs :
  _retrieve_kg_information lower (Some g) [question_entity] question_relations
  = Some (es, rs) ->
  Forall2 (fun e r => retrieved_relation g e = Some r)
          (flat_map (fun nd =>
                       filter (fun e => edge_kept question_relations (edge_data e))
                              (out_edges g (fst nd)))
                    (filter (matches lower question_entity) (g_node g)))
          rs.
Proof.
  unfold _retrieve_kg_information.
  destruct (g_node g) as [|n ns] eqn:E; [intros [= <- <-]; constructor|].
  rewrite <- E. simpl.
  destruct (matched_nodes lower (question_name question_entity)
                          (question_type question_entity) (g_node g))
    as [ms|] eqn:Hm; [|discriminate].
  destruct (collect g question_relations ms) as [[es1 rs1]|] eqn:Hc; [|discriminate].
  intros [= <- <-]. rewrite app_nil_r.
  rewrite <- (matched_nodes_filter _ _ _ _ _ Hm : ms = filter (matches lower question_entity) (g_node g)).
  now apply collect_relations with es1.
Qed.

(* ================================================================== *)
(** * Further properties of the pipeline *)

(** ** The canonical ids *)

Lemma ids_from_seq es : forall n,
  ids_from n es ->
  map e_id es = map (fun i => Some (Z.of_nat i)) (seq n (List.length es)).
Proof.
  induction es as [|e es IH]; simpl; intros n H; [reflexivity|].
  destruct H as (-> & H). f_equal. now apply IH.
Qed.

(** The ids given by entity deduplication are 0, 1, 2, ... in output order:
    no id is skipped and no two canonical entities share one. *)
Theorem dedup_entities_ids_consecutive :
  forall entities,
    map e_id (_deduplicate_entities entities) =
    map (fun i => Some (Z.of_nat i))
        (seq 0 (List.length (_deduplicate_entities entities))) /\
    NoDup (map e_id (_deduplicate_entities entities)).
Proof.
  intros entities.
  destruct (dedup_entities_invariant entities) as (_ & _ & Hids).
  assert (H := ids_from_seq _ 0 Hids). unfold _deduplicate_entities.
  split; [exact H|]. rewrite H.
  apply NoDup_map_NoDup_ForallPairs; [|apply seq_NoDup].
  intros a b _ _ [= E]. now apply Nat2Z.inj.
Qed.

(** ** The order of the canonical records *)

(** The distinct elements of a list of keys, in order of first occurrence. *)
Fixpoint unseen (seen ks : list string) : list string :=
  match ks with
  | [] => []
  | k :: ks' =>
      if str_in_list k seen then unseen seen ks'
      else k :: unseen (k :: seen) ks'
  end.

Definition first_occurrences (ks : list string) : list string := unseen [] ks.

Lemma str_in_list_true k ks : str_in_list k ks = true <-> In k ks.
Proof.
  unfold str_in_list. rewrite existsb_exists. split.
  - intros (x & Hx & E). apply String.eqb_eq in E. now subst.
  - intros H. exists k. split; [exact H | apply String.eqb_refl].
Qed.

Lemma str_in_list_ext k s1 s2 :
  (forall x, In x s1 <-> In x s2) -> str_in_list k s1 = str_in_list k s2.
Proof.
  intros H. destruct (str_in_list k s1) eqn:E1, (str_in_list k s2) eqn:E2;
    try reflexivity.
  - apply str_in_list_true, H, str_in_list_true in E1. congruence.
  - apply str_in_list_true, H, str_in_list_true in E2. congruence.
Qed.

Lemma unseen_ext ks : forall s1 s2,
  (forall x, In x s1 <-> In x s2) -> unseen s1 ks = unseen s2 ks.
Proof.
  induction ks as [|k ks IH]; simpl; intros s1 s2 H; [reflexivity|].
  rewrite (str_in_list_ext k s1 s2 H).
  destruct (str_in_list k s2); [now apply IH|].
  f_equal. apply IH. intros x. simpl. rewrite H. tauto.
Qed.

Section KeyedFoldOrder.
Context {A : Type}.
Variable key : A -> string.
Variable step : dict A -> A -> dict A.

Hypothesis step_cases : forall d x, keyed key d ->
  (dict_get d (key x) = None /\
   exists v, key v = key x /\ step d x = (d ++ [(key x, v)])%list)
  \/
  (exists c v, dict_get d (key x) = Some c /\ key v = key x /\
               step d x = dict_set d (key x) v).

(** The keys of the final dict: those of the start, then the new keys of the
    list in order of first occurrence. *)
Lemma fold_keys_order xs : forall d,
  keyed key d ->
  dict_keys (fold_left step xs d) =
  (dict_keys d ++ unseen (dict_keys d) (map key xs))%list.
Proof.
  induction xs as [|x xs IH]; simpl; intros d Hk.
  - now rewrite app_nil_r.
  - rewrite (IH _ (step_keyed key step step_cases d x Hk)).
    destruct (step_cases d x Hk) as [(Hn & v & _ & ->) | (c & v & Hs & _ & ->)].
    + assert (E : str_in_list (key x) (dict_keys d) = false).
      { destruct (str_in_list (key x) (dict_keys d)) eqn:E; [|reflexivity].
        apply str_in_list_true in E. now apply dict_get_none_not_in in Hn. }
      rewrite E. unfold dict_keys at 1 2. rewrite map_app. simpl.
      rewrite <- app_assoc. simpl. f_equal. f_equal.
      apply unseen_ext. intros y. rewrite in_app_iff. simpl. tauto.
    + assert (E : str_in_list (key x) (dict_keys d) = true).
      { apply str_in_list_true, dict_has_true. unfold dict_has. now rewrite Hs. }
      rewrite E. now rewrite (dict_keys_set_present _ _ _ _ Hs).
Qed.

End KeyedFoldOrder.

(** Both deduplicators list their canonical records in the order in which the
    keys first occur in the input, one record per distinct key. *)
Theorem dedup_keys_in_first_occurrence_order :
  (forall entities,
     map entity_key (_deduplicate_entities entities) =
     first_occurrences (map entity_key entities)) /\
  (forall relations,
     map relation_key (_deduplicate_relations relations) =
     first_occurrences (map relation_key relations)).
Proof.
  split.
  - intros entities. unfold _deduplicate_entities.
    destruct (dedup_entities_invariant entities) as (Hk & _ & _).
    rewrite (keyed_values_keys entity_key _ Hk).
    apply (fold_keys_order entity_key dedup_entity_step dedup_entity_step_cases
                           entities []), keyed_nil.
  - intros relations. unfold _deduplicate_relations.
    destruct (dedup_relations_invariant relations) as (Hk & _).
    rewrite (keyed_values_keys relation_key _ Hk).
    apply (fold_keys_order relation_key dedup_relation_step
                           dedup_relation_step_cases relations []), keyed_nil.
Qed.

(** ** Node keys *)

Fixpoint underscore_free (s : string) : bool :=
  match s with
  | EmptyString => true
  | String a s' => negb (Ascii.eqb a "_") && underscore_free s'
  end.

Lemma underscore_free_app a b :
  underscore_free (a ++ String "_" b) = false.
Proof.
  induction a as [|x a IH]; simpl; [reflexivity|].
  rewrite IH. apply andb_false_r.
Qed.

(** The text after the last underscore is determined by the whole. *)
Lemma append_underscore_inj a : forall b s s',
  underscore_free s = true -> underscore_free s' = true ->
  a ++ "_" ++ s = b ++ "_" ++ s' -> a = b /\ s = s'.
Proof.
  induction a as [|x a IH]; intros [|y b] s s' Hs Hs' H; simpl in H.
  - inversion H. auto.
  - inversion H; subst. now rewrite underscore_free_app in Hs.
  - inversion H; subst. now rewrite underscore_free_app in Hs'.
  - inversion H; subst. destruct (IH b s s' Hs Hs' H2) as (-> & ->). auto.
Qed.

Lemma underscore_free_uint d :
  underscore_free (NilEmpty.string_of_uint d) = true.
Proof. induction d; simpl; auto. Qed.

Lemma underscore_free_str_of_int n : underscore_free (str_of_int n) = true.
Proof.
  unfold str_of_int.
  destruct (Z.to_int n) as [d | d]; simpl;
    destruct d; simpl; auto using underscore_free_uint.
Qed.

(** A node key determines the type and the id it was built from. *)
Lemma node_key_inj t i t' i' :
  node_key t i = node_key t' i' -> t = t' /\ i = i'.
Proof.
  unfold node_key. intros H.
  apply append_underscore_inj in H as (-> & H);
    auto using underscore_free_str_of_int.
  split; [reflexivity | now apply str_of_int_inj].
Qed.

(** ** Assembly after deduplication *)

(** The node a canonical entity becomes. *)
Definition node_of (json_dumps : json -> string) (e : Entity)
           (nd : string * dict json) : Prop :=
  exists i, e_id e = Some i /\
            nd = (node_key (e_type e) i,
                  node_attrs json_dumps (node_key (e_type e) i) e).

Lemma add_entity_nodes_fresh json_dumps es : forall n g,
  ids_from n es ->
  (forall k, In k (dict_keys (g_node g)) ->
             exists t i, k = node_key t (Z.of_nat i) /\ i < n) ->
  exists g',
    fold_left (add_entity_node json_dumps) es (Some g) = Some g' /\
    exists nodes,
      g_node g' = (g_node g ++ nodes)%list /\
      Forall2 (node_of json_dumps) es nodes.
Proof.
  induction es as [|e es IH]; simpl; intros n g Hids Hkeys.
  - exists g. split; [reflexivity|]. exists []. rewrite app_nil_r. auto.
  - destruct Hids as (Hid & Hids). rewrite Hid.
    set (k := node_key (e_type e) (Z.of_nat n)).
    assert (Hfresh : dict_get (g_node g) k = None).
    { apply dict_get_none_not_in. intros Hin.
      destruct (Hkeys k Hin) as (t & i & E & Hlt).
      apply node_key_inj in E as (_ & E). apply Nat2Z.inj in E. lia. }
    assert (Hadd : g_node (add_node g k (node_attrs json_dumps k e)) =
                   (g_node g ++ [(k, node_attrs json_dumps k e)])%list).
    { unfold add_node. rewrite Hfresh. simpl.
      now rewrite (dict_set_fresh _ _ _ Hfresh). }
    destruct (IH (S n) (add_node g k (node_attrs json_dumps k e)) Hids)
      as (g' & Hg' & nodes & Hnodes & Hall).
    { intros k' Hin. rewrite Hadd in Hin. unfold dict_keys in Hin.
      rewrite map_app in Hin. apply in_app_or in Hin as [Hin | [<- | []]].
      - destruct (Hkeys k' Hin) as (t & i & E & Hlt). exists t, i. split; [exact E | lia].
      - exists (e_type e), n. split; [reflexivity | lia]. }
    exists g'. split; [exact Hg'|].
    exists ((k, node_attrs json_dumps k e) :: nodes). split.
    + rewrite Hnodes, Hadd, <- app_assoc. reflexivity.
    + constructor; [|exact Hall]. exists (Z.of_nat n). auto.
Qed.

(** Assembling the graph from deduplicated entities never fails, and gives
    exactly one node per canonical entity, in order: the node is keyed by the
    entity's type and id and carries the entity's attributes. *)
Theorem build_graph_after_dedup :
  forall json_dumps entities relations,
    exists g,
      build_graph json_dumps (_deduplicate_entities entities) relations = Some g /\
      Forall2 (node_of json_dumps) (_deduplicate_entities entities) (g_node g).
Proof.
  intros json_dumps entities relations.
  destruct (dedup_entities_invariant entities) as (_ & _ & Hids).
  destruct (add_entity_nodes_fresh json_dumps (_deduplicate_entities entities)
                                   0 empty_graph Hids)
    as (g0 & Hg0 & nodes & Hnodes & Hall).
  { intros k []. }
  unfold build_graph. rewrite Hg0. eexists. split; [reflexivity|].
  rewrite fold_relation_edges_nodes, Hnodes. exact Hall.
Qed.

(** The nodes of an assembled graph come from the entities alone: relations
    never add a node and never change a node's attributes. *)
Theorem build_graph_nodes_from_entities :
  forall json_dumps entities relations,
    option_map g_node (build_graph json_dumps entities relations) =
    option_map g_node (build_graph json_dumps entities []).
Proof.
  intros json_dumps entities relations. unfold build_graph.
  destruct (fold_left (add_entity_node json_dumps) entities (Some empty_graph));
    simpl; [|reflexivity].
  now rewrite fold_relation_edges_nodes.
Qed.

(** ** The relations found for a pair *)

(** A relation as the caller can read it: a dict that has a type and a
    confidence. *)
Definition relation_dict (r : json) : Prop :=
  exists d, r = JDict d /\ dict_has d "type" = true /\
            dict_has d "confidence" = true.

Lemma filter_relation_dict float_of_str relation r :
  filter_relation float_of_str relation = Some (Some r) -> relation_dict r.
Proof.
  unfold filter_relation.
  destruct relation as [| | | | |d]; simpl; try discriminate.
  - destruct (str_in "type" s); [|discriminate]. simpl.
    destruct (str_in "confidence" s); discriminate.
  - destruct (existsb (str_eq_json "type") xs); [|discriminate].
    destruct (existsb (str_eq_json "confidence") xs); discriminate.
  - destruct (dict_has d "type") eqn:Ht; [|discriminate].
    destruct (dict_has d "confidence") eqn:Hc; simpl.
    + destruct (dict_get d "confidence") as [c|]; [|discriminate].
      destruct (to_float float_of_str c) as [f|]; [|discriminate].
      destruct (PrimFloat.ltb f min_confidence); [discriminate|].
      intros [= <-]. now exists d.
    + rewrite dict_get_set_same. simpl.
      intros [= <-]. eexists. split; [reflexivity|]. split.
      * unfold dict_has in *. rewrite dict_get_set_other by discriminate. exact Ht.
      * unfold dict_has. now rewrite dict_get_set_same.
Qed.

Lemma predefined_dict source target r :
  In r (_check_predefined_relations source target) -> relation_dict r.
Proof.
  unfold _check_predefined_relations.
  repeat match goal with
         | |- context [if ?b then _ else _] => destruct b
         end; simpl; intros H;
    first [contradiction
          | destruct H as [<- | []]; eexists; split; [reflexivity | split; reflexivity]].
Qed.

Lemma extract_medical_relations_dicts float_of_str generate_json source target :
  (List.length (snd (extract_medical_relations float_of_str generate_json
                                               source target)) <= 1)%nat /\
  Forall relation_dict
         (fst (extract_medical_relations float_of_str generate_json
                                         source target)).
Proof.
  revert float_of_str generate_json source target.
  intros float_of_str generate_json source target.
  unfold extract_medical_relations.
  match goal with
  | |- context [_check_predefined_relations ?s ?t] =>
      pose proof (predefined_dict s t) as Hpre;
      destruct (_check_predefined_relations s t) as [|p ps]
  end.
  - match goal with
    | |- context [generate_json ?p] => destruct (generate_json p) as [response|]
    end; [|simpl; auto].
    destruct (handle_response float_of_str response) as [valid|] eqn:H;
      simpl; [|auto].
    split; [lia|]. apply Forall_forall. intros r Hr.
    destruct (handle_response_kept _ _ _ H r Hr) as (relation & Hf).
    now apply filter_relation_dict with float_of_str relation.
  - simpl. split; [lia|]. apply Forall_forall. exact Hpre.
Qed.

(** Whatever the generation service answers, the extractor sends at most one
    prompt for a pair, and every relation it returns is a dict holding both a
    type and a confidence, so the caller's reads of these keys never fail. *)
Theorem extract_medical_relations_wellformed :
  forall float_of_str generate_json source target,
    (List.length (snd (extract_medical_relations float_of_str generate_json
                                                 source target)) <= 1)%nat /\
    Forall relation_dict
           (fst (extract_medical_relations float_of_str generate_json
                                           source target)).
Proof.
  intros. apply extract_medical_relations_dicts.
Qed.

(** When the table of candidate relation types lists the pair of types in
    the reverse order only, the extractor treats the pair as if it had been
    given in that order: the prompt and the relations are the same for
    [(source, target)] and for [(target, source)]. *)
Theorem extract_medical_relations_reversed_pair :
  forall float_of_str generate_json source target,
    type_map_get relation_type_map (e_type source) (e_type target) = [] ->
    type_map_get relation_type_map (e_type target) (e_type source) <> [] ->
    extract_medical_relations float_of_str generate_json source target =
    extract_medical_relations float_of_str generate_json target source.
Proof.
  intros float_of_str generate_json source target Hdirect Hreversed.
  unfold extract_medical_relations. rewrite Hdirect.
  destruct (type_map_get relation_type_map (e_type target) (e_type source))
    as [|t ts]; [congruence | reflexivity].
Qed.

Lemma extract_medical_relations_reversed_pair_witness :
  extract_medical_relations no_float sample_service
                            (sample_mention "症状" "多饮" None)
                            (sample_mention "疾病" "糖尿病" None) =
  extract_medical_relations no_float sample_service
                            (sample_mention "疾病" "糖尿病" None)
                            (sample_mention "症状" "多饮" None).
Proof.
  apply extract_medical_relations_reversed_pair; [reflexivity | discriminate].
Defined.

(** ** The pair loops of [extract_relations_from_text] *)

(** A relation record built for the pair [(s, t)]. *)
Definition connects (s t : Entity) (m : RelationMention) : Prop :=
  m_source_id m = e_id s /\ m_source_type m = e_type s /\
  m_source_name m = e_name s /\
  m_target_id m = e_id t /\ m_target_type m = e_type t /\
  m_target_name m = e_name t.

Lemma relation_objs_total s t rs :
  Forall relation_dict rs ->
  exists ms, relation_objs s t rs = Some ms /\ Forall (connects s t) ms.
Proof.
  induction rs as [|r rs IH]; simpl; intros H.
  - exists []. auto.
  - inversion H as [|? ? (d & -> & _ & _) Hrs]; subst.
    destruct (IH Hrs) as (ms & -> & Hms). simpl.
    eexists. split; [reflexivity|]. constructor; [|exact Hms].
    repeat split.
Qed.

(** Grouping: the keys are distinct, and a group holds elements of the list
    whose field is the key of the group. *)
Lemma group_step_get field groups e k :
  dict_get (group_step field groups e) k =
  if String.eqb k (field e)
  then Some (match dict_get groups k with
             | Some members => (members ++ [e])%list
             | None => [e]
             end)
  else dict_get groups k.
Proof.
  unfold group_step. destruct (String.eqb k (field e)) eqn:E.
  - apply String.eqb_eq in E; subst k.
    destruct (dict_get groups (field e)); apply dict_get_set_same.
  - apply String.eqb_neq in E.
    destruct (dict_get groups (field e)); now apply dict_get_set_other.
Qed.

Lemma group_fold_nodup field es : forall groups,
  NoDup (dict_keys groups) ->
  NoDup (dict_keys (fold_left (group_step field) es groups)).
Proof.
  induction es as [|e es IH]; simpl; intros groups H; [exact H|].
  apply IH. unfold group_step.
  destruct (dict_get groups (field e)); now apply dict_set_nodup.
Qed.

Lemma group_fold_members field (P : Entity -> Prop) es : forall groups,
  (forall e, In e es -> P e) ->
  (forall k members, dict_get groups k = Some members ->
                     forall e, In e members -> P e /\ field e = k) ->
  forall k members,
    dict_get (fold_left (group_step field) es groups) k = Some members ->
    forall e, In e members -> P e /\ field e = k.
Proof.
  induction es as [|x es IH]; simpl; intros groups HP Hg; [exact Hg|].
  apply IH; [intros e He; apply HP; now right|].
  intros k members. rewrite group_step_get.
  destruct (String.eqb k (field x)) eqn:E; [|apply Hg].
  apply String.eqb_eq in E. intros [= <-] e He.
  destruct (dict_get groups k) as [old|] eqn:G.
  - apply in_app_or in He as [He | [<- | []]]; [now apply (Hg k old)|].
    split; [apply HP; now left | now symmetry].
  - destruct He as [<- | []]. split; [apply HP; now left | now symmetry].
Qed.

Lemma groups_of field es :
  NoDup (dict_keys (fold_left (group_step field) es [])) /\
  forall k members,
    In (k, members) (fold_left (group_step field) es []) ->
    forall e, In e members -> In e es /\ field e = k.
Proof.
  assert (Hnd := group_fold_nodup field es [] (NoDup_nil _)).
  split; [exact Hnd|]. intros k members Hin.
  apply (group_fold_members field (fun e => In e es) es []); auto.
  - discriminate.
  - now apply dict_in_get.
Qed.

Lemma count_other_keys {V : Type} (d : dict V) k :
  NoDup (dict_keys d) -> In k (dict_keys d) ->
  S (List.length (filter (fun kv => negb (String.eqb k (fst kv))) d)) =
  List.length d.
Proof.
  induction d as [|[k' v] d IH]; simpl; intros Hnd Hin; [contradiction|].
  inversion Hnd as [|? ? Hni Hnd']; subst.
  destruct (String.eqb k k') eqn:E; simpl.
  - apply String.eqb_eq in E; subst k'. f_equal.
    clear IH Hin Hnd Hnd'. induction d as [|[k2 v2] d IH]; simpl; [reflexivity|].
    destruct (String.eqb k k2) eqn:E2.
    + apply String.eqb_eq in E2; subst. exfalso; apply Hni. now left.
    + simpl. f_equal. apply IH. intros H. apply Hni. now right.
  - f_equal. apply IH; [exact Hnd'|].
    destruct Hin as [-> | Hin]; [|exact Hin].
    now rewrite String.eqb_refl in E.
Qed.

Section PairLoops.
Variable float_of_str : string -> option float.
Variable generate_json : string -> option json.
Variable P : RelationMention -> Prop.

Lemma target_loop_spec source targets : forall st c,
  (forall t m, In t targets -> connects source t m -> P m) ->
  Forall P (ls_relations st) ->
  c < max_pairs ->
  exists st' c',
    target_loop float_of_str generate_json source targets st c = Some (st', c') /\
    c <= c' <= max_pairs /\
    List.length (ls_prompts st') + c <= List.length (ls_prompts st) + c' /\
    Forall P (ls_relations st').
Proof.
  induction targets as [|t targets IH]; cbn [target_loop]; intros st c HP Hst Hc.
  - exists st, c. split; [reflexivity|]. split; [lia|]. split; [lia | exact Hst].
  - assert (HP' : forall t' m, In t' targets -> connects source t' m -> P m)
      by (intros t' m Ht'; apply HP; now right).
    destruct (str_in_list (pair_key source t) (ls_processed st)).
    + now apply IH.
    + destruct (extract_medical_relations_dicts
                  float_of_str generate_json source t) as (Hlen & Hdict).
      destruct (relation_objs_total source t _ Hdict) as (ms & -> & Hms).
      set (st1 := mkLoopState _ _ _).
      assert (Hst1 : Forall P (ls_relations st1)).
      { simpl. apply Forall_app. split; [exact Hst|].
        apply Forall_forall. intros m Hm. apply (HP t m); [now left|].
        rewrite Forall_forall in Hms. now apply Hms. }
      assert (Hp1 : List.length (ls_prompts st1) <= List.length (ls_prompts st) + 1).
      { simpl. rewrite length_app. lia. }
      destruct (Nat.leb max_pairs (S c)) eqn:E.
      * exists st1, (S c). split; [reflexivity|].
        unfold max_pairs in *. split; [lia|]. split; [lia | exact Hst1].
      * apply Nat.leb_gt in E.
        destruct (IH st1 (S c) HP' Hst1 E) as (st' & c' & H & Hcc & Hp & HPst).
        exists st', c'. split; [exact H|].
        split; [lia|]. split; [lia | exact HPst].
Qed.

Lemma source_loop_spec sources targets : forall st c,
  (forall s t m, In s sources -> In t targets -> connects s t m -> P m) ->
  Forall P (ls_relations st) ->
  c <= max_pairs ->
  exists st',
    source_loop float_of_str generate_json sources targets st c = Some st' /\
    List.length (ls_prompts st') + c <= List.length (ls_prompts st) + max_pairs /\
    Forall P (ls_relations st').
Proof.
  induction sources as [|s sources IH]; cbn [source_loop]; intros st c HP Hst Hc.
  - exists st. split; [reflexivity|]. split; [lia | exact Hst].
  - destruct (Nat.leb max_pairs c) eqn:E.
    + apply Nat.leb_le in E.
      exists st. split; [reflexivity|]. split; [lia | exact Hst].
    + apply Nat.leb_gt in E.
      destruct (target_loop_spec s targets st c) as (st1 & c1 & -> & Hcc & Hp & HP1);
        [intros t m Ht; apply HP; [now left | exact Ht] | exact Hst | exact E |].
      destruct (IH st1 c1) as (st' & H & Hp' & HP');
        [intros s' t m Hs'; apply HP; now right | exact HP1 | lia |].
      exists st'. split; [exact H|]. split; [lia | exact HP'].
Qed.

Lemma target_type_loop_spec source_type sources targets : forall st,
  (forall target_type target_entities s t m,
     In (target_type, target_entities) targets ->
     source_type <> target_type ->
     In s sources -> In t target_entities -> connects s t m -> P m) ->
  Forall P (ls_relations st) ->
  exists st',
    target_type_loop float_of_str generate_json source_type sources targets st
    = Some st' /\
    List.length (ls_prompts st') <=
    List.length (ls_prompts st) +
    max_pairs * List.length
                  (filter (fun kv => negb (String.eqb source_type (fst kv)))
                          targets) /\
    Forall P (ls_relations st').
Proof.
  induction targets as [|[tt tes] targets IH]; cbn [target_type_loop filter fst];
    intros st HP Hst.
  - exists st. split; [reflexivity|]. split; [lia | exact Hst].
  - assert (HP' : forall target_type target_entities s t m,
               In (target_type, target_entities) targets ->
               source_type <> target_type ->
               In s sources -> In t target_entities -> connects s t m -> P m)
      by (intros a b s t m Hin; apply (HP a b); now right).
    destruct (String.eqb source_type tt) eqn:E; cbn [negb].
    + now apply IH.
    + apply String.eqb_neq in E.
      destruct (source_loop_spec sources tes st 0) as (st1 & -> & Hp & HP1);
        [intros s t m Hs Ht; apply (HP tt tes s t m);
           [now left | exact E | exact Hs | exact Ht]
        | exact Hst | unfold max_pairs; lia |].
      destruct (IH st1 HP' HP1) as (st' & H & Hp' & HPst).
      exists st'. split; [exact H|]. split; [|exact HPst].
      unfold max_pairs in *. cbn [List.length]. lia.
Qed.

Lemma source_type_loop_spec groups sources : forall st,
  NoDup (dict_keys groups) ->
  (forall kv, In kv sources -> In kv groups) ->
  (forall source_type source_entities target_type target_entities s t m,
     In (source_type, source_entities) groups ->
     In (target_type, target_entities) groups ->
     source_type <> target_type ->
     In s source_entities -> In t target_entities -> connects s t m -> P m) ->
  Forall P (ls_relations st) ->
  exists st',
    source_type_loop float_of_str generate_json sources groups st = Some st' /\
    List.length (ls_prompts st') + max_pairs * List.length sources <=
    List.length (ls_prompts st) +
    max_pairs * List.length sources * List.length groups /\
    Forall P (ls_relations st').
Proof.
  intros st Hnd. revert st.
  induction sources as [|[sty ses] sources IH]; cbn [source_type_loop];
    intros st Hsub HP Hst.
  - exists st. split; [reflexivity|]. split; [|exact Hst].
    cbn [List.length]. lia.
  - assert (Hgroup : In (sty, ses) groups) by (apply Hsub; now left).
    destruct (target_type_loop_spec sty ses groups st) as (st1 & -> & Hp & HP1);
      [intros tt tes s t m Hin Hne; now apply (HP sty ses tt tes) | exact Hst |].
    destruct (IH st1) as (st' & H & Hp' & HP');
      [intros kv Hkv; apply Hsub; now right | exact HP | exact HP1 |].
    exists st'. split; [exact H|]. split; [|exact HP'].
    assert (Hin : In sty (dict_keys groups)).
    { change sty with (fst (sty, ses)). now apply in_map. }
    assert (Hc := count_other_keys groups sty Hnd Hin).
    unfold max_pairs in *. cbn [List.length]. nia.
Qed.

End PairLoops.

Lemma group_fold_keys field es : forall groups k,
  In k (dict_keys (fold_left (group_step field) es groups)) ->
  In k (dict_keys groups) \/ exists e, In e es /\ field e = k.
Proof.
  induction es as [|x es IH]; simpl; intros groups k H; [now left|].
  destruct (IH _ _ H) as [Hk | (e & He & Hf)]; [|right; eauto].
  destruct (string_dec k (field x)) as [-> | Hne]; [right; eauto|].
  left. apply dict_has_true. apply dict_has_true in Hk. unfold dict_has in *.
  now rewrite group_step_get, (proj2 (String.eqb_neq _ _) Hne) in Hk.
Qed.

(** The endpoints of a relation record: two entities of the list, of
    different types. *)
Definition between (entities : list Entity) (m : RelationMention) : Prop :=
  exists s t, In s entities /\ In t entities /\
              e_type s <> e_type t /\ connects s t m.

Lemma extract_relations_from_text_spec float_of_str generate_json entities :
  exists relations prompts,
    extract_relations_from_text float_of_str generate_json entities
    = Some (relations, prompts) /\
    Forall (between entities) relations /\
    List.length prompts + max_pairs * List.length (group_by_type entities) <=
    max_pairs * List.length (group_by_type entities)
    * List.length (group_by_type entities).
Proof.
  unfold extract_relations_from_text.
  destruct (Nat.ltb (List.length entities) 2).
  - exists [], []. split; [reflexivity|]. split; [constructor|].
    cbn [List.length]. unfold max_pairs. nia.
  - destruct (groups_of e_type entities) as (Hnd & Hmem).
    fold (group_by_type entities) in Hnd, Hmem.
    destruct (source_type_loop_spec float_of_str generate_json (between entities)
                (group_by_type entities) (group_by_type entities)
                (mkLoopState [] [] []) Hnd)
      as (st & -> & Hp & HP).
    + auto.
    + intros sty ses tty tes s t m Hs Ht Hne Hins Hint Hc.
      destruct (Hmem _ _ Hs s Hins) as (H1 & H2).
      destruct (Hmem _ _ Ht t Hint) as (H3 & H4).
      exists s, t. repeat split; try apply Hc; auto. congruence.
    + constructor.
    + exists (ls_relations st), (ls_prompts st).
      split; [reflexivity|]. split; [exact HP|]. simpl in Hp. exact Hp.
Qed.

(** Given fewer than two entities, or entities that all have the same
    type, [extract_relations_from_text] returns no relation and sends no
    prompt to the generation service. *)
Theorem extract_relations_from_text_one_type :
  forall float_of_str generate_json entities,
    List.length entities < 2 \/
    (exists type, forall e, In e entities -> e_type e = type) ->
    extract_relations_from_text float_of_str generate_json entities
    = Some ([], []).
Proof.
  intros float_of_str generate_json entities Hcase.
  destruct (extract_relations_from_text_spec float_of_str generate_json entities)
    as (relations & prompts & H & Hbetween & Hbound).
  destruct Hcase as [Hlen | (type & Hsame)].
  - unfold extract_relations_from_text.
    apply Nat.ltb_lt in Hlen. now rewrite Hlen.
  - rewrite H. f_equal. f_equal.
    + destruct relations as [|m ms]; [reflexivity|].
      inversion Hbetween as [|? ? (s & t & Hs & Ht & Hne & _) _]; subst.
      exfalso. apply Hne. now rewrite (Hsame s Hs), (Hsame t Ht).
    + assert (Hk : forall k, In k (dict_keys (group_by_type entities)) -> k = type).
      { intros k Hin. destruct (group_fold_keys e_type entities [] k Hin)
          as [[] | (e & He & <-)]. now apply Hsame. }
      assert (Hnd := proj1 (groups_of e_type entities)).
      fold (group_by_type entities) in Hnd.
      assert (Hlen : List.length (group_by_type entities) <= 1).
      { unfold dict_keys in *. rewrite <- (length_map fst).
        destruct (map fst (group_by_type entities)) as [|a [|b l]]; simpl; try lia.
        exfalso. inversion Hnd as [|? ? Hni _]; subst. apply Hni.
        rewrite (Hk a), (Hk b); simpl; auto. }
      destruct prompts as [|p ps]; [reflexivity|]. exfalso.
      simpl in Hbound. unfold max_pairs in Hbound. nia.
Qed.

Lemma extract_relations_from_text_one_type_witness :
  extract_relations_from_text
    no_float sample_service
    [sample_mention "药物" "胰岛素" None; sample_mention "药物" "二甲双胍" None]
  = Some ([], []).
Proof.
  apply extract_relations_from_text_one_type. right. exists "药物".
  intros e [<- | [<- | []]]; reflexivity.
Defined.

(** Every relation record returned by [extract_relations_from_text] joins
    two entities of the given list that have different types, the first as
    source and the second as target. *)
Theorem extract_relations_from_text_endpoints :
  forall float_of_str generate_json entities,
    exists relations prompts,
      extract_relations_from_text float_of_str generate_json entities
      = Some (relations, prompts) /\
      Forall (between entities) relations.
Proof.
  intros float_of_str generate_json entities.
  destruct (extract_relations_from_text_spec float_of_str generate_json entities)
    as (relations & prompts & H & Hbetween & _).
  now exists relations, prompts.
Qed.

(** [extract_relations_from_text] sends at most 5 prompts per ordered pair of
    distinct entity types: with [T] types among the entities, at most
    [5 * T * (T - 1)] prompts in all, however many entities there are. *)
Theorem extract_relations_from_text_prompt_bound :
  forall float_of_str generate_json entities,
    exists relations prompts,
      extract_relations_from_text float_of_str generate_json entities
      = Some (relations, prompts) /\
      List.length prompts <=
      5 * List.length (group_by_type entities)
      * (List.length (group_by_type entities) - 1).
Proof.
  intros float_of_str generate_json entities.
  destruct (extract_relations_from_text_spec float_of_str generate_json entities)
    as (relations & prompts & H & _ & Hbound).
  exists relations, prompts. split; [exact H|].
  unfold max_pairs in Hbound.
  destruct (List.length (group_by_type entities)); simpl in *; nia.
Qed.

(** ** The entities found in a text *)

(** [xs] keeps some of the elements of [ys], in their order. *)
Inductive subseq {A : Type} : list A -> list A -> Prop :=
| subseq_nil : subseq [] []
| subseq_skip x xs ys : subseq xs ys -> subseq xs (x :: ys)
| subseq_keep x xs ys : subseq xs ys -> subseq (x :: xs) (x :: ys).

Lemma subseq_nil_l {A : Type} (ys : list A) : subseq [] ys.
Proof. induction ys; constructor; auto. Qed.

(** An entity as the caller can read it: a dict that has a name and a type. *)
Definition entity_dict (e : json) : Prop :=
  exists d, e = JDict d /\ dict_has d "name" = true /\ dict_has d "type" = true.

Section EntityFacts.
Variable py_str : json -> string.

(** The key under which the loop remembers an entity. *)
Definition local_key (e : json) : string :=
  py_str (match getitem e "name" with Some v => v | None => JNull end)
  ++ "_" ++
  py_str (match getitem e "type" with Some v => v | None => JNull end).

Lemma unique_entity_fold_none items :
  fold_left (unique_entity_step py_str) items None = None.
Proof. induction items; simpl; auto. Qed.

Lemma unique_entity_fold_spec items : forall u seen u' seen',
  fold_left (unique_entity_step py_str) items (Some (u, seen)) = Some (u', seen') ->
  exists ext,
    u' = (u ++ ext)%list /\ subseq ext items /\ Forall entity_dict ext /\
    seen' = (rev (map local_key ext) ++ seen)%list /\
    (NoDup seen -> NoDup seen').
Proof.
  induction items as [|x items IH]; simpl; intros u seen u' seen' H.
  - inversion H; subst. exists []. rewrite app_nil_r.
    repeat split; auto; constructor.
  - assert (Hskip :
      fold_left (unique_entity_step py_str) items (Some (u, seen)) = Some (u', seen') ->
      exists ext,
        u' = (u ++ ext)%list /\ subseq ext (x :: items) /\ Forall entity_dict ext /\
        seen' = (rev (map local_key ext) ++ seen)%list /\
        (NoDup seen -> NoDup seen')).
    { intros H'. destruct (IH _ _ _ _ H') as (ext & ? & ? & ? & ? & ?).
      exists ext. repeat split; auto. now constructor. }
    destruct (contains x "name") as [[|]|] eqn:Cn;
      [| now apply Hskip | now rewrite unique_entity_fold_none in H].
    destruct (contains x "type") as [[|]|] eqn:Ct;
      [| now apply Hskip | now rewrite unique_entity_fold_none in H].
    destruct (getitem x "name") as [name|] eqn:Gn;
      [| now rewrite unique_entity_fold_none in H].
    destruct (getitem x "type") as [type|] eqn:Gt;
      [| now rewrite unique_entity_fold_none in H].
    assert (Hkey : py_str name ++ String "_" (py_str type) = local_key x)
      by (unfold local_key; now rewrite Gn, Gt).
    rewrite Hkey in H.
    destruct (str_in_list (local_key x) seen) eqn:Hseen; [now apply Hskip|].
    destruct (IH _ _ _ _ H) as (ext & -> & Hsub & Hdict & -> & Hnd).
    exists (x :: ext). split; [now rewrite <- app_assoc|].
    split; [now constructor|]. split.
    + constructor; [|exact Hdict].
      destruct x as [| | | | |d]; try discriminate. exists d.
      simpl in Cn, Ct. injection Cn as Cn. injection Ct as Ct. auto.
    + split; [simpl; now rewrite <- app_assoc|].
      intros Hs. apply Hnd. constructor; [|exact Hs].
      intros Hin. apply str_in_list_true in Hin. congruence.
Qed.

End EntityFacts.

(** Whatever the generation service answers, the per-text entity extractor
    returns dicts that hold both a name and a type, and no two of them have
    the same [name_type] key. *)
Theorem extract_medical_entities_wellformed :
  forall py_str entity_prompt generate_json text,
    Forall entity_dict
           (extract_medical_entities py_str entity_prompt generate_json text) /\
    NoDup (map (local_key py_str)
               (extract_medical_entities py_str entity_prompt generate_json text)).
Proof.
  intros py_str entity_prompt generate_json text.
  unfold extract_medical_entities.
  destruct (generate_json (entity_prompt text)) as [result|];
    [|split; constructor].
  unfold unique_entities_of.
  destruct result as [| | | | |d]; try (split; constructor).
  destruct (iterate (dict_get_default d "entities" (JList []))) as [items|];
    [|split; constructor].
  destruct (negb (truthy (dict_get_default d "entities" (JList []))));
    [split; constructor|].
  destruct (fold_left (unique_entity_step py_str) items (Some ([], [])))
    as [[u seen]|] eqn:H; [|split; constructor].
  destruct (unique_entity_fold_spec py_str items [] [] u seen H)
    as (ext & -> & _ & Hdict & -> & Hnd).
  simpl. split; [exact Hdict|].
  specialize (Hnd (NoDup_nil _)). rewrite app_nil_r in Hnd.
  apply NoDup_rev in Hnd. now rewrite rev_involutive in Hnd.
Qed.

(** The entities returned for a text are entities of the service's answer,
    in the order of the answer: nothing is invented or reordered. *)
Theorem extract_medical_entities_from_answer :
  forall py_str entity_prompt generate_json text d items,
    generate_json (entity_prompt text) = Some (JDict d) ->
    iterate (dict_get_default d "entities" (JList [])) = Some items ->
    subseq (extract_medical_entities py_str entity_prompt generate_json text)
           items.
Proof.
  intros py_str entity_prompt generate_json text d items Hr Hi.
  unfold extract_medical_entities, unique_entities_of. rewrite Hr, Hi.
  destruct (negb (truthy (dict_get_default d "entities" (JList []))));
    [apply subseq_nil_l|].
  destruct (fold_left (unique_entity_step py_str) items (Some ([], [])))
    as [[u seen]|] eqn:H; [|apply subseq_nil_l].
  destruct (unique_entity_fold_spec py_str items [] [] u seen H)
    as (ext & -> & Hsub & _). exact Hsub.
Qed.

(** A generation service that names the same entity twice, and one entity
    without type. *)
Definition entity_service (prompt : string) : option json :=
  Some (JDict [("entities",
                JList [ JDict [("name", JStr "糖尿病"); ("type", JStr "疾病")];
                        JDict [("name", JStr "多饮")];
                        JDict [("name", JStr "糖尿病"); ("type", JStr "疾病")] ])]).

(** [str] of the values written in the samples: strings. *)
Definition sample_str (v : json) : string :=
  match v with JStr s => s | _ => "None" end.

Lemma extract_medical_entities_from_answer_witness :
  subseq (extract_medical_entities sample_str (fun text => text)
                                   entity_service "糖尿病患者多饮")
         [ JDict [("name", JStr "糖尿病"); ("type", JStr "疾病")];
           JDict [("name", JStr "多饮")];
           JDict [("name", JStr "糖尿病"); ("type", JStr "疾病")] ].
Proof.
  apply (extract_medical_entities_from_answer
           sample_str (fun text => text) entity_service "糖尿病患者多饮"
           [("entities",
             JList [ JDict [("name", JStr "糖尿病"); ("type", JStr "疾病")];
                     JDict [("name", JStr "多饮")];
                     JDict [("name", JStr "糖尿病"); ("type", JStr "疾病")] ])]);
    reflexivity.
Defined.

Example extract_medical_entities_sample :
  extract_medical_entities sample_str (fun text => text)
                           entity_service "糖尿病患者多饮" =
  [ JDict [("name", JStr "糖尿病"); ("type", JStr "疾病")] ].
Proof. vm_compute. reflexivity. Qed.

(** ** The entity listing of the API *)

(** The nodes the listing considers for a [type] argument. *)
Definition listed (entity_type : option string) (nd : string * dict json)
  : bool :=
  negb (other_type entity_type (snd nd)).

Lemma list_entities_spec nodes entity_type limit : forall entities,
  list_entities nodes entity_type limit entities =
  (entities ++
   map entity_of
       (firstn (Z.to_nat (Z.max 1 (limit - Z.of_nat (List.length entities))))
               (filter (listed entity_type) nodes)))%list.
Proof.
  induction nodes as [|[node data] nodes IH]; cbn [list_entities filter];
    intros entities.
  - rewrite firstn_nil. simpl. now rewrite app_nil_r.
  - unfold listed at 1. cbn [snd].
    destruct (other_type entity_type data); cbn [negb]; [apply IH|].
    rewrite length_app. cbn [List.length].
    destruct (Z.leb_spec limit (Z.of_nat (List.length entities + 1))) as [Hle | Hgt].
    + replace (Z.to_nat (Z.max 1 (limit - Z.of_nat (List.length entities))))
        with 1 by lia.
      reflexivity.
    + rewrite IH, length_app. cbn [List.length].
      replace (Z.to_nat (Z.max 1 (limit - Z.of_nat (List.length entities))))
        with (S (Z.to_nat (Z.max 1 (limit - Z.of_nat (List.length entities + 1)))))
        by lia.
      cbn [firstn map]. rewrite <- app_assoc. reflexivity.
Qed.

(** On a loaded graph, [get_entities] returns the first [max(1, limit)] nodes
    that pass the type filter, in graph order, with their number: a limit of
    zero or less still returns one entity when there is one. *)
Theorem get_entities_limit :
  forall g entity_type limit,
    g_node g <> [] ->
    get_entities (Some g) entity_type limit =
    Payload
      (map entity_of
           (firstn (Z.to_nat (Z.max 1 limit))
                   (filter (listed entity_type) (g_node g))),
       Nat.min (Z.to_nat (Z.max 1 limit))
               (List.length (filter (listed entity_type) (g_node g)))).
Proof.
  intros g entity_type limit Hne. unfold get_entities.
  destruct (g_node g) as [|nd nodes] eqn:E; [congruence|].
  rewrite list_entities_spec. cbn [List.length app].
  rewrite Z.sub_0_r, length_map, length_firstn. reflexivity.
Qed.

Lemma get_entities_limit_witness :
  get_entities (Some sample_graph) (Some "") 0 =
  Payload
    (map entity_of
         (firstn (Z.to_nat (Z.max 1 0))
                 (filter (listed (Some "")) (g_node sample_graph))),
     Nat.min (Z.to_nat (Z.max 1 0))
             (List.length (filter (listed (Some "")) (g_node sample_graph)))).
Proof.
  apply (get_entities_limit sample_graph (Some "") 0). discriminate.
Defined.

(** ** The relations retrieved for a question *)

Lemma retrieve_relations lower g question_relations question_entities :
  forall es rs,
    retrieve lower g question_entities question_relations = Some (es, rs) ->
    Forall2 (fun e r => retrieved_relation g e = Some r)
            (flat_map
               (fun qe =>
                  flat_map
                    (fun nd =>
                       filter (fun e => edge_kept question_relations (edge_data e))
                              (out_edges g (fst nd)))
                    (filter (matches lower qe) (g_node g)))
               question_entities)
            rs.
Proof.
  induction question_entities as [|qe qes IH]; simpl; intros es rs H.
  - inversion H. constructor.
  - destruct (matched_nodes lower (question_name qe) (question_type qe) (g_node g))
      as [ms|] eqn:Hm; [|discriminate].
    destruct (collect g question_relations ms) as [[es1 rs1]|] eqn:Hc; [|discriminate].
    destruct (retrieve lower g qes question_relations) as [[es2 rs2]|]; [|discriminate].
    inversion H; subst. apply Forall2_app; [|now apply (IH es2)].
    rewrite <- (matched_nodes_filter _ _ _ _ _ Hm
                : ms = filter (matches lower qe) (g_node g)).
    now apply collect_relations with es1.
Qed.

(** The relations retrieved for a question are, in order, the relations made
    from the outgoing edges of the matched nodes that pass the hint test,
    question entity by question entity and node by node; an edge passes the
    test exactly when there is no hint or its type is one of the hints. *)
Theorem retrieved_relations_from_outgoing_edges :
  forall lower g question_entities question_relations es rs,
    _retrieve_kg_information lower (Some g) question_entities question_relations
    = Some (es, rs) ->
    Forall2 (fun e r => retrieved_relation g e = Some r)
            (flat_map
               (fun qe =>
                  flat_map
                    (fun nd =>
                       filter (fun e => edge_kept question_relations (edge_data e))
                              (out_edges g (fst nd)))
                    (filter (matches lower qe) (g_node g)))
               question_entities)
            rs /\
    (forall data,
       edge_kept question_relations data = true <->
       question_relations = [] \/
       exists h, In h question_relations /\
                 dict_get_default data "type" (JStr "") = JStr h).
Proof.
  intros lower g qes hints es rs H. split; [|intros data; apply edge_kept_true].
  unfold _retrieve_kg_information in H.
  destruct (g_node g) as [|n ns] eqn:E.
  - inversion H; subst. clear. induction qes; simpl; [constructor | exact IHqes].
  - rewrite <- E in *. now apply retrieve_relations with es.
Qed.

Lemma retrieved_relations_from_outgoing_edges_witness :
  Forall2 (fun e r => retrieved_relation sample_graph e = Some r)
          (flat_map
             (fun qe =>
                flat_map
                  (fun nd =>
                     filter (fun e => edge_kept ["治疗"] (edge_data e))
                            (out_edges sample_graph (fst nd)))
                  (filter (matches ascii_lower qe) (g_node sample_graph)))
             [mkQuestionEntity (Some "胰岛素") None])
          [ [ ("source", JStr "药物_0"); ("target", JStr "疾病_1");
              ("source_name", JStr "胰岛素"); ("target_name", JStr "糖尿病");
              ("type", JStr "治疗"); ("confidence", JNum 0.9%float);
              ("description", JStr "") ] ] /\
  (forall data,
     edge_kept ["治疗"] data = true <->
     ["治疗"] = [] \/
     exists h, In h ["治疗"] /\ dict_get_default data "type" (JStr "") = JStr h).
Proof.
  apply (retrieved_relations_from_outgoing_edges
           ascii_lower sample_graph [mkQuestionEntity (Some "胰岛素") None] ["治疗"]
           [ [ ("id", JStr "药物_0"); ("name", JStr "胰岛素");
               ("type", JStr "药物"); ("source_doc", JStr "糖尿病.txt");
               ("description", JStr ""); ("attributes", JStr "{}") ] ]).
  vm_compute. reflexivity.
Defined.

(** ** The relations gathered document by document *)

Section Gather.
Variable float_of_str : string -> option float.
Variable generate_json : string -> option json.
Variable clean_text : string -> string.
Variable save_json_data : list RelationMention -> bool.
Variable P : RelationMention -> Prop.



End Gather.




